(** * Lottery draw engine of [lottosolana4.py]: a shallow embedding

    The development follows the Python module section by section: the
    clock and the draw-time rules, the SQLite ledger, the SOL transfer
    routine, the draw job and the purchase confirmation handlers.

    Data is kept as the program has it.  A [float] is Python's (and
    SQLite's REAL) IEEE-754 binary64 number, a [datetime] is a point of the
    UTC time line, a database table is the list of its rows.  The functions
    run in a state-and-exception monad over a [World]: the two databases,
    the in-memory job queue, and the services outside the process (the
    wall clock, the random source, the RPC node), each given by the
    sequence of answers it returns.  Database statements are taken to
    succeed; the key library and the node may raise at every call. *)

From Stdlib Require Import ZArith List Bool String Lia Floats.
Import ListNotations.

Set Warnings "-inexact-float".

Local Open Scope string_scope.
Local Open Scope list_scope.
Local Open Scope Z_scope.

(** ** Time: [datetime], [timedelta] and the draw-time rules *)

Module Clock.

(** An aware UTC [datetime], counted in microseconds from
    0001-01-01T00:00:00 (the day of proleptic ordinal 1, a Monday).  Python
    datetimes carry no leap seconds, so every day has [DAY] microseconds.
    The upper end of Python's range (year 9999) is not represented. *)
Definition datetime := Z.

Definition SECOND : Z := 1000000.
Definition MINUTE : Z := 60 * SECOND.
Definition HOUR : Z := 60 * MINUTE.
Definition DAY : Z := 24 * HOUR.

(** [timedelta(hours=h)] and [timedelta(days=d)], in microseconds. *)
Definition timedelta_hours (h : Z) : Z := h * HOUR.
Definition timedelta_days (d : Z) : Z := d * DAY.

(** The fields of a datetime. *)
Definition day_index (t : datetime) : Z := t / DAY.
Definition hour (t : datetime) : Z := (t mod DAY) / HOUR.
Definition minute (t : datetime) : Z := (t mod HOUR) / MINUTE.
Definition second (t : datetime) : Z := (t mod MINUTE) / SECOND.
Definition microsecond (t : datetime) : Z := t mod SECOND.

(** [t.weekday()]: Monday is 0 and Sunday is 6. *)
Definition weekday (t : datetime) : Z := day_index t mod 7.

(** [t.replace(hour=h, minute=m, second=s, microsecond=us)]: the date part
    is kept, the time of day is overwritten. *)
Definition replace (t : datetime) (h m s us : Z) : datetime :=
  day_index t * DAY + h * HOUR + m * MINUTE + s * SECOND + us.

(** [get_next_draw_datetime(lottery_type)], with the reading of
    [datetime.now(timezone.utc)] passed in as [now]. *)
Definition get_next_draw_datetime (now : datetime) (lottery_type : string)
  : datetime :=
  if String.eqb lottery_type "hourly" then
    let next_hour := replace (now + timedelta_hours 1)
                             (hour (now + timedelta_hours 1)) 0 0 0 in
    next_hour
  else if String.eqb lottery_type "daily" then
    let draw_today := replace now 20 0 0 0 in
    if now <? draw_today then draw_today
    else draw_today + timedelta_days 1
  else if String.eqb lottery_type "weekly" then
    let days_ahead := (6 - weekday now) mod 7 in
    let draw_datetime := replace now 20 0 0 0 + timedelta_days days_ahead in
    if now <? draw_datetime then draw_datetime
    else draw_datetime + timedelta_days 7
  else now.

(** The draw-time rule of each cadence, on the fields of the instant. *)
Definition on_the_hour (t : datetime) : Prop :=
  minute t = 0 /\ second t = 0 /\ microsecond t = 0.

Definition at_2000 (t : datetime) : Prop :=
  hour t = 20 /\ minute t = 0 /\ second t = 0 /\ microsecond t = 0.

Definition sunday_2000 (t : datetime) : Prop :=
  weekday t = 6 /\ at_2000 t.

Definition draw_rule (lottery_type : string) (t : datetime) : Prop :=
  if String.eqb lottery_type "hourly" then on_the_hour t
  else if String.eqb lottery_type "daily" then at_2000 t
  else if String.eqb lottery_type "weekly" then sunday_2000 t
  else False.

(** The three lotteries the bot runs, and the names it gives them. *)
Inductive Cadence : Type := Hourly | Daily | Weekly.

Definition cadence_name (c : Cadence) : string :=
  match c with
  | Hourly => "hourly"
  | Daily => "daily"
  | Weekly => "weekly"
  end.

(** 2024-03-10 is a Sunday; its day index is 738954. *)
Definition sunday_2024_03_10 (h m s : Z) : datetime :=
  738954 * DAY + h * HOUR + m * MINUTE + s * SECOND.

End Clock.

(** ** Python values: exceptions, truthiness, [int(float)] *)

Module Py.

(** The outcome of a call that may raise: a value, or the name of the
    exception.  Only ordinary exceptions (subclasses of [Exception], the
    ones an [except Exception] clause catches) are represented. *)
Inductive exc (A : Type) : Type :=
| Ok (a : A)
| Raise (e : string).
Arguments Ok {A} a.
Arguments Raise {A} e.

(** Truth value of [x] in [if x:] for an optional string: [None] and the
    empty string are false. *)
Definition truthy (x : option string) : bool :=
  match x with
  | Some s => negb (String.eqb s "")
  | None => false
  end.

(** [int(x)] for a float: truncation toward zero; [ValueError] on a NaN and
    [OverflowError] on an infinity. *)
Definition int_of_float (x : float) : exc Z :=
  match Prim2SF x with
  | S754_zero _ => Ok 0
  | S754_finite s m e =>
      let magnitude :=
        if 0 <=? e then Z.pos m * 2 ^ e else Z.pos m / 2 ^ (- e) in
      Ok (if s then - magnitude else magnitude)
  | S754_infinity _ => Raise "OverflowError"
  | S754_nan => Raise "ValueError"
  end.

End Py.

(** ** The world the bot runs in: its two databases and the services
    outside the process *)

Module Model.
Import Clock Py.

(** A row of [lottery_tickets].  [draw_date] holds the ISO text of the
    scheduled draw instant; that text determines the instant, so the
    instant itself is stored.  [drawn] is the INTEGER flag (0 or 1). *)
Record Ticket := {
  id : Z;
  telegram_id : Z;
  lottery_type : string;
  draw_date : datetime;
  ticket_count : Z;
  amount_spent : float;
  won : float;
  drawn : Z;
  purchased_at : datetime
}.

(** A row of [lottery_pot]; [pot_type] is its primary key. *)
Record PotRow := {
  pot_type : string;
  pot : float;
  ticket_price : float;
  draw_time : string
}.

(** The columns of [users] that the draw and the purchase read. *)
Record User := {
  user_id : Z;
  wallet_address : string;
  private_key : string;
  username : string
}.

(** A transaction handed to [send_transaction]. *)
Record Tx := {
  tx_from : string;
  tx_to : string;
  tx_lamports : Z;
  tx_blockhash : string
}.

(** The RPC node and key library as one [transfer_sol] call sees them.
    [keypair_from_private_key] gives the sender's address.
    [get_onchain_balance] is the module's helper of that name, in SOL; it
    returns 0.0 where the node fails.  [public_key] receives the address
    as passed; stripping its blanks is part of the parser.
    [transfer_instruction] stands for building the instruction and the
    transaction from the lamports. *)
Record Rpc := {
  keypair_from_private_key : string -> exc string;
  get_onchain_balance : string -> float;
  public_key : string -> exc string;
  transfer_instruction : Z -> exc unit;
  get_latest_blockhash : exc string;
  send_transaction : Tx -> exc (option string)
}.

(** A call of [transfer_sol], as requested by its caller. *)
Record Request := {
  req_to : string;
  req_amount : float;
  req_cap : bool
}.

(** A job of the queue: [run_once(draw_job_callback, delay, name, data)].
    The delay is kept in microseconds. *)
Record Job := {
  job_name : string;
  job_delay : Z;
  job_lottery_type : string;
  job_draw_datetime : datetime
}.

(** Module-level configuration.  An address that failed to parse is
    [None], as the [except] clauses at import time leave it. *)
Record Config := {
  OPERATOR_PRIVATE_KEY_BASE58 : string;
  OPERATOR_WALLET_ADDRESS : option string;
  OPERATOR_PAYOUT_WALLET_ADDRESS : option string
}.

(** What lies outside the process: the wall clock, the secure random
    source and the RPC node, each as the sequence of answers it gives. *)
Record Outside := {
  clock : nat -> datetime;
  entropy : nat -> nat;
  node : nat -> Rpc
}.

(** The state the code runs in.  [requests] logs the calls of
    [transfer_sol] and [submitted] the transactions handed to
    [send_transaction], oldest first; [ticks] and [rolls] count the
    readings taken so far from the clock and from the random source. *)
Record World := {
  lottery_tickets : list Ticket;
  lottery_pot : list PotRow;
  users : list User;
  job_queue : list Job;
  requests : list Request;
  submitted : list Tx;
  ticks : nat;
  rolls : nat;
  config : Config;
  outside : Outside
}.

Definition set_tickets (w : World) (ts : list Ticket) : World :=
  {| lottery_tickets := ts; lottery_pot := lottery_pot w; users := users w;
     job_queue := job_queue w; requests := requests w;
     submitted := submitted w; ticks := ticks w; rolls := rolls w;
     config := config w; outside := outside w |}.

Definition set_pot (w : World) (ps : list PotRow) : World :=
  {| lottery_tickets := lottery_tickets w; lottery_pot := ps; users := users w;
     job_queue := job_queue w; requests := requests w;
     submitted := submitted w; ticks := ticks w; rolls := rolls w;
     config := config w; outside := outside w |}.

Definition set_job_queue (w : World) (js : list Job) : World :=
  {| lottery_tickets := lottery_tickets w; lottery_pot := lottery_pot w;
     users := users w; job_queue := js; requests := requests w;
     submitted := submitted w; ticks := ticks w; rolls := rolls w;
     config := config w; outside := outside w |}.

Definition set_requests (w : World) (rs : list Request) : World :=
  {| lottery_tickets := lottery_tickets w; lottery_pot := lottery_pot w;
     users := users w; job_queue := job_queue w; requests := rs;
     submitted := submitted w; ticks := ticks w; rolls := rolls w;
     config := config w; outside := outside w |}.

Definition set_submitted (w : World) (txs : list Tx) : World :=
  {| lottery_tickets := lottery_tickets w; lottery_pot := lottery_pot w;
     users := users w; job_queue := job_queue w; requests := requests w;
     submitted := txs; ticks := ticks w; rolls := rolls w;
     config := config w; outside := outside w |}.

Definition set_ticks (w : World) (n : nat) : World :=
  {| lottery_tickets := lottery_tickets w; lottery_pot := lottery_pot w;
     users := users w; job_queue := job_queue w; requests := requests w;
     submitted := submitted w; ticks := n; rolls := rolls w;
     config := config w; outside := outside w |}.

Definition set_rolls (w : World) (n : nat) : World :=
  {| lottery_tickets := lottery_tickets w; lottery_pot := lottery_pot w;
     users := users w; job_queue := job_queue w; requests := requests w;
     submitted := submitted w; ticks := ticks w; rolls := n;
     config := config w; outside := outside w |}.

(** *** A state-and-exception monad over the world *)

Definition M (A : Type) : Type := World -> exc A * World.

Definition ret {A} (a : A) : M A := fun w => (Ok a, w).

Definition bind {A B} (m : M A) (k : A -> M B) : M B :=
  fun w =>
    match m w with
    | (Ok a, w') => k a w'
    | (Raise e, w') => (Raise e, w')
    end.

Definition lift {A} (x : exc A) : M A := fun w => (x, w).

Definition gets {A} (f : World -> A) : M A := fun w => (Ok (f w), w).

Definition modify (f : World -> World) : M unit := fun w => (Ok tt, f w).

(** [try: body  except Exception as e: handler(e)]. *)
Definition try_except {A} (body : M A) (handler : string -> M A) : M A :=
  fun w =>
    match body w with
    | (Ok a, w') => (Ok a, w')
    | (Raise e, w') => handler e w'
    end.

Declare Scope monad_scope.
Delimit Scope monad_scope with monad.
Notation "x <- m ;; k" := (bind m (fun x => k))
  (at level 61, m at next level, right associativity) : monad_scope.
Notation "m ;;; k" := (bind m (fun _ => k))
  (at level 61, right associativity) : monad_scope.
Local Open Scope monad_scope.

(** [datetime.now(timezone.utc)]. *)
Definition datetime_now : M datetime :=
  fun w => (Ok (clock (outside w) (ticks w)), set_ticks w (S (ticks w))).

(** [secrets.choice(seq)]: [IndexError] on an empty sequence, else the
    element at a random index below its length. *)
Definition secrets_choice (seq : list Z) : M Z :=
  fun w =>
    match seq with
    | [] => (Raise "IndexError", w)
    | _ :: _ =>
        (Ok (nth (entropy (outside w) (rolls w) mod List.length seq)%nat seq 0),
         set_rolls w (S (rolls w)))
    end.

(** *** Database helpers *)

(** [INTEGER PRIMARY KEY AUTOINCREMENT]: rows are never deleted, so the new
    id is one more than the largest id in the table. *)
Definition next_id (ts : list Ticket) : Z :=
  1 + fold_right (fun t m => Z.max (id t) m) 0 ts.

(** The three rows that [init_lottery_db] inserts (INSERT OR IGNORE). *)
Definition TICKET_PRICE_SOL : float := 0.001.
Definition WEEKLY_TICKET_PRICE_SOL : float := TICKET_PRICE_SOL.

Definition initial_pot_rows : list PotRow :=
  [ {| pot_type := "hourly"; pot := 0.0; ticket_price := TICKET_PRICE_SOL;
       draw_time := "every hour" |};
    {| pot_type := "daily"; pot := 0.0; ticket_price := TICKET_PRICE_SOL;
       draw_time := "20:00" |};
    {| pot_type := "weekly"; pot := 0.0;
       ticket_price := WEEKLY_TICKET_PRICE_SOL;
       draw_time := "Sunday 20:00" |} ].

Definition has_pot_row (name : string) (ps : list PotRow) : bool :=
  existsb (fun r => String.eqb (pot_type r) name) ps.

Definition init_lottery_db : M unit :=
  modify (fun w =>
    set_pot w
      (fold_left
         (fun ps r => if has_pot_row (pot_type r) ps then ps else ps ++ [r])
         initial_pot_rows (lottery_pot w))).

Definition get_user (tid : Z) : M (option User) :=
  gets (fun w => find (fun u => user_id u =? tid) (users w)).

(** [add_ticket]: one INSERT, with [won] and [drawn] at their defaults. *)
Definition add_ticket (tid : Z) (lottery : string) (draw : datetime)
    (count : Z) (spent : float) : M unit :=
  now <- datetime_now ;;
  modify (fun w =>
    set_tickets w
      (lottery_tickets w ++
       [ {| id := next_id (lottery_tickets w);
            telegram_id := tid;
            lottery_type := lottery;
            draw_date := draw;
            ticket_count := count;
            amount_spent := spent;
            won := 0.0;
            drawn := 0;
            purchased_at := now |} ])).

Definition add_to_pot (additional : float) (r : PotRow) : PotRow :=
  {| pot_type := pot_type r; pot := (pot r + additional)%float;
     ticket_price := ticket_price r; draw_time := draw_time r |}.

(** [UPDATE lottery_pot SET pot = pot + ? WHERE lottery_type=?]. *)
Definition update_lottery_pot (lottery : string) (additional : float)
  : M unit :=
  modify (fun w =>
    set_pot w
      (map (fun r => if String.eqb (pot_type r) lottery
                     then add_to_pot additional r else r)
           (lottery_pot w))).

Definition zero_pot (r : PotRow) : PotRow :=
  {| pot_type := pot_type r; pot := 0.0;
     ticket_price := ticket_price r; draw_time := draw_time r |}.

(** [UPDATE lottery_pot SET pot = 0.0 WHERE lottery_type=?].  The module
    defines this helper and calls it nowhere. *)
Definition reset_lottery_pot (lottery : string) : M unit :=
  modify (fun w =>
    set_pot w
      (map (fun r => if String.eqb (pot_type r) lottery
                     then zero_pot r else r)
           (lottery_pot w))).

(** [SELECT pot, ticket_price, draw_time FROM lottery_pot WHERE ...],
    [fetchone()]. *)
Definition get_lottery_info (lottery : string)
  : M (option (float * float * string)) :=
  gets (fun w =>
    match find (fun r => String.eqb (pot_type r) lottery) (lottery_pot w) with
    | Some r => Some (pot r, ticket_price r, draw_time r)
    | None => None
    end).

Definition set_drawn (t : Ticket) : Ticket :=
  {| id := id t; telegram_id := telegram_id t;
     lottery_type := lottery_type t; draw_date := draw_date t;
     ticket_count := ticket_count t; amount_spent := amount_spent t;
     won := won t; drawn := 1; purchased_at := purchased_at t |}.

(** [UPDATE lottery_tickets SET drawn = 1 WHERE lottery_type=? AND
    draw_date=? AND drawn=0].  The module defines this helper and calls it
    nowhere. *)
Definition mark_tickets_drawn (lottery : string) (draw : datetime) : M unit :=
  modify (fun w =>
    set_tickets w
      (map (fun t =>
              if String.eqb (lottery_type t) lottery
                 && (draw_date t =? draw) && (drawn t =? 0)
              then set_drawn t else t)
           (lottery_tickets w))).

(** *** [transfer_sol] *)

Definition MIN_RENT_EXEMPT_SOL : float := 0.002.

(** Lines 328-340: parse the receiver, convert to lamports, build and send
    the transaction. *)
Definition send_lamports (rpc : Rpc) (sender_address to_address : string)
    (amount_sol : float) : M (option string) :=
  receiver <- lift (public_key rpc to_address) ;;
  lamports <- lift (int_of_float (amount_sol * 1000000000)%float) ;;
  lift (transfer_instruction rpc lamports) ;;;
  actual_blockhash <- lift (get_latest_blockhash rpc) ;;
  let transaction :=
    {| tx_from := sender_address; tx_to := receiver;
       tx_lamports := lamports; tx_blockhash := actual_blockhash |} in
  modify (fun w => set_submitted w (submitted w ++ [transaction])) ;;;
  tx_result <- lift (send_transaction rpc transaction) ;;
  ret tx_result.

Definition transfer_sol_body (rpc : Rpc) (from_private_key to_address : string)
    (amount_sol : float) (max_transfer_if_insufficient : bool)
  : M (option string) :=
  sender_address <- lift (keypair_from_private_key rpc from_private_key) ;;
  let sender_balance := get_onchain_balance rpc sender_address in
  let max_transferable := (sender_balance - MIN_RENT_EXEMPT_SOL)%float in
  if (max_transferable <=? 0)%float then ret None
  else if negb max_transfer_if_insufficient then
    if (sender_balance <? amount_sol + MIN_RENT_EXEMPT_SOL)%float
    then ret None
    else send_lamports rpc sender_address to_address amount_sol
  else
    let amount_sol :=
      if (max_transferable <? amount_sol)%float
      then max_transferable else amount_sol in
    send_lamports rpc sender_address to_address amount_sol.

(** The call is entered in [requests], and meets the node in the state it
    has for that call. *)
Definition transfer_sol (from_private_key to_address : string)
    (amount_sol : float) (max_transfer_if_insufficient : bool)
  : M (option string) :=
  rpc <- gets (fun w => node (outside w) (List.length (requests w))) ;;
  modify (fun w =>
    set_requests w
      (requests w ++
       [ {| req_to := to_address; req_amount := amount_sol;
            req_cap := max_transfer_if_insufficient |} ])) ;;;
  try_except
    (transfer_sol_body rpc from_private_key to_address amount_sol
       max_transfer_if_insufficient)
    (fun _ => ret None).

(** *** Scheduling *)

Definition schedule_draw (lottery : string) : M unit :=
  now0 <- datetime_now ;;
  let next_draw_dt := get_next_draw_datetime now0 lottery in
  now <- datetime_now ;;
  let delay := next_draw_dt - now in
  let delay := if delay <? 0 then 0 else delay in
  modify (fun w =>
    set_job_queue w
      (job_queue w ++
       [ {| job_name := lottery; job_delay := delay;
            job_lottery_type := lottery;
            job_draw_datetime := next_draw_dt |} ])).

(** The scheduling part of [main()]: the queue of a starting process is
    empty (it lives in memory only), the databases are the files on disk. *)
Definition main : M unit :=
  modify (fun w => set_job_queue w []) ;;;
  init_lottery_db ;;;
  schedule_draw "hourly" ;;;
  schedule_draw "daily" ;;;
  schedule_draw "weekly".

(** *** The draw job *)

Definition OPERATOR_CUT_PERCENT : float := 0.10.

(** [SELECT telegram_id, ticket_count FROM lottery_tickets WHERE
    lottery_type=? AND draw_date=? AND drawn=0]. *)
Definition undrawn (lottery : string) (draw : datetime) (t : Ticket) : bool :=
  String.eqb (lottery_type t) lottery && (draw_date t =? draw)
  && (drawn t =? 0).

Definition select_undrawn (lottery : string) (draw : datetime)
    (ts : list Ticket) : list (Z * Z) :=
  map (fun t => (telegram_id t, ticket_count t))
      (filter (undrawn lottery draw) ts).

Definition undrawn_rows (lottery : string) (draw : datetime)
  : M (list (Z * Z)) :=
  gets (fun w => select_undrawn lottery draw (lottery_tickets w)).

(** [entries.extend([telegram_id] * ticket_count)] for every row; a count
    of zero or less contributes nothing. *)
Definition expand_entries (rows : list (Z * Z)) : list Z :=
  flat_map (fun row => repeat (fst row) (Z.to_nat (snd row))) rows.

(** [[x for x in remaining_entries if x != chosen]]. *)
Definition without (chosen : Z) (entries : list Z) : list Z :=
  filter (fun x => negb (x =? chosen)) entries.

Definition nonempty {A} (l : list A) : bool :=
  match l with [] => false | _ :: _ => true end.

(** Lines 455-467: up to three picks, all entries of a picked owner
    leaving the pool after the first and the second pick. *)
Definition select_winners (entries : list Z) : M (list Z) :=
  let winners : list Z := [] in
  let remaining_entries := entries in
  step1 <-
    (if nonempty remaining_entries then
       first <- secrets_choice remaining_entries ;;
       ret (winners ++ [first], without first remaining_entries)
     else ret (winners, remaining_entries)) ;;
  let winners := fst step1 in
  let remaining_entries := snd step1 in
  step2 <-
    (if nonempty remaining_entries then
       second <- secrets_choice remaining_entries ;;
       ret (winners ++ [second], without second remaining_entries)
     else ret (winners, remaining_entries)) ;;
  let winners := fst step2 in
  let remaining_entries := snd step2 in
  if nonempty remaining_entries then
    third <- secrets_choice remaining_entries ;;
    ret (winners ++ [third])
  else ret winners.

Definition add_won (prize : float) (t : Ticket) : Ticket :=
  {| id := id t; telegram_id := telegram_id t;
     lottery_type := lottery_type t; draw_date := draw_date t;
     ticket_count := ticket_count t; amount_spent := amount_spent t;
     won := (won t + prize)%float; drawn := drawn t;
     purchased_at := purchased_at t |}.

(** [UPDATE lottery_tickets SET won = won + ? WHERE telegram_id=? AND
    lottery_type=? AND draw_date=?]. *)
Definition credit_winner (prize : float) (winner_id : Z) (lottery : string)
    (draw : datetime) : M unit :=
  modify (fun w =>
    set_tickets w
      (map (fun t =>
              if (telegram_id t =? winner_id)
                 && String.eqb (lottery_type t) lottery
                 && (draw_date t =? draw)
              then add_won prize t else t)
           (lottery_tickets w))).

(** Line 481: [[remaining_pot * 0.70, remaining_pot * 0.20,
    remaining_pot * 0.10]]. *)
Definition tier_prizes (remaining_pot : float) : list float :=
  [ (remaining_pot * 0.70)%float; (remaining_pot * 0.20)%float;
    (remaining_pot * 0.10)%float ].

(** An element of [results]: [(winner_id, prize, tx)]. *)
Record Payout := {
  payout_winner : Z;
  payout_prize : float;
  payout_tx : string
}.

(** [str(x)] for an optional string: the string itself, or ["None"]. *)
Definition py_str (x : option string) : string :=
  match x with Some s => s | None => "None" end.

(** The body of the loop [for i, winner_id in enumerate(winners)], lines
    485-499, for one winner and the [results] gathered so far. *)
Definition pay_winner (lottery : string) (draw : datetime) (prize : float)
    (winner_id : Z) (results : list Payout) : M (list Payout) :=
  winner <- get_user winner_id ;;
  match winner with
  | Some u =>
      key <- gets (fun w => OPERATOR_PRIVATE_KEY_BASE58 (config w)) ;;
      tx_hash <- transfer_sol key (wallet_address u) prize true ;;
      if truthy tx_hash then
        credit_winner prize winner_id lottery draw ;;;
        ret (results ++
             [ {| payout_winner := winner_id; payout_prize := prize;
                  payout_tx := py_str tx_hash |} ])
      else
        ret (results ++
             [ {| payout_winner := winner_id; payout_prize := prize;
                  payout_tx := "Transfer failed" |} ])
  | None =>
      ret (results ++
           [ {| payout_winner := winner_id; payout_prize := prize;
                payout_tx := "Winner not found" |} ])
  end.

(** The loop itself, entered at index [i]; [prize] is
    [prizes[i] if i < len(prizes) else 0.0]. *)
Fixpoint pay_winners (lottery : string) (draw : datetime)
    (prizes : list float) (i : nat) (winners : list Z)
    (results : list Payout) : M (list Payout) :=
  match winners with
  | [] => ret results
  | winner_id :: rest =>
      let prize := nth i prizes 0.0%float in
      results <- pay_winner lottery draw prize winner_id results ;;
      pay_winners lottery draw prizes (S i) rest results
  end.

(** The locals of a draw that found tickets, as they stand when the result
    message is composed. *)
Record DrawReport := {
  winners : list Z;
  total_pot : float;
  operator_cut : float;
  operator_cut_tx_hash : option string;
  remaining_pot : float;
  prizes : list float;
  results : list Payout
}.

(** Lines 452-499: the branch of the draw job taken when tickets were
    found. *)
Definition draw_with_tickets (lottery : string) (scheduled_draw_dt : datetime)
    (rows : list (Z * Z)) : M DrawReport :=
  let entries := expand_entries rows in
  winners <- select_winners entries ;;
  lottery_info <- get_lottery_info lottery ;;
  let total_pot :=
    match lottery_info with
    | Some info => fst (fst info)
    | None => 0.0%float
    end in
  let operator_cut := (total_pot * OPERATOR_CUT_PERCENT)%float in
  let remaining_pot := (total_pot - operator_cut)%float in
  payout_address <-
    gets (fun w => OPERATOR_PAYOUT_WALLET_ADDRESS (config w)) ;;
  cut <-
    match payout_address with
    | Some address =>
        key <- gets (fun w => OPERATOR_PRIVATE_KEY_BASE58 (config w)) ;;
        operator_cut_tx_hash <- transfer_sol key address operator_cut false ;;
        ret (operator_cut_tx_hash, remaining_pot)
    | None => ret (None, total_pot)
    end ;;
  let operator_cut_tx_hash := fst cut in
  let remaining_pot := snd cut in
  let prizes := tier_prizes remaining_pot in
  results <- pay_winners lottery scheduled_draw_dt prizes 0 winners [] ;;
  ret {| winners := winners; total_pot := total_pot;
         operator_cut := operator_cut;
         operator_cut_tx_hash := operator_cut_tx_hash;
         remaining_pot := remaining_pot; prizes := prizes;
         results := results |}.

(** [draw_job_callback(context)], with [context.job.data] as arguments.
    The result is [None] when no ticket was found.  The messages sent to
    the participants touch neither the databases nor the queue nor the
    node and are left out. *)
Definition draw_job_callback (lottery : string) (scheduled_draw_dt : datetime)
  : M (option DrawReport) :=
  rows <- undrawn_rows lottery scheduled_draw_dt ;;
  report <-
    (if negb (nonempty rows) then ret None
     else
       report <- draw_with_tickets lottery scheduled_draw_dt rows ;;
       ret (Some report)) ;;
  schedule_draw lottery ;;;
  ret report.

(** *** Confirming a purchase *)

Inductive PurchaseOutcome : Type :=
| NoPendingPurchase
| TicketPurchased (tx_hash : string)
| TransferFailed.

(** The body shared by the three [confirm_buy_ticket_*_callback] handlers,
    which differ in the lottery name only.  [pending] is the
    ["ticket_price"] of [user_data["pending_purchase"]], if that key is
    present; the handler pops it before the transfer. *)
Definition confirm_buy_ticket (lottery : string) (tid : Z)
    (pending : option float) : M PurchaseOutcome :=
  user <- get_user tid ;;
  match user, pending with
  | Some u, Some ticket_price =>
      operator <- gets (fun w => OPERATOR_WALLET_ADDRESS (config w)) ;;
      tx_hash <- transfer_sol (private_key u) (py_str operator)
                   ticket_price false ;;
      if truthy tx_hash then
        now <- datetime_now ;;
        let draw_dt := get_next_draw_datetime now lottery in
        add_ticket tid lottery draw_dt 1 ticket_price ;;;
        update_lottery_pot lottery ticket_price ;;;
        ret (TicketPurchased (py_str tx_hash))
      else ret TransferFailed
  | _, _ => ret NoPendingPurchase
  end.

Definition confirm_buy_ticket_hourly_callback := confirm_buy_ticket "hourly".
Definition confirm_buy_ticket_daily_callback := confirm_buy_ticket "daily".
Definition confirm_buy_ticket_weekly_callback := confirm_buy_ticket "weekly".

End Model.

(** ** Vocabulary of the statements *)

Module Statements.
Import Clock Py Model.

(** A ticket with its [won] column blanked: two tickets agree on every
    other column when they agree after blanking. *)
Definition forget_won (t : Ticket) : Ticket :=
  {| id := id t; telegram_id := telegram_id t;
     lottery_type := lottery_type t; draw_date := draw_date t;
     ticket_count := ticket_count t; amount_spent := amount_spent t;
     won := 0.0%float; drawn := drawn t; purchased_at := purchased_at t |}.

(** What a draw leaves alone: the pots, the users, the configuration, the
    outside, and every column of every ticket except [won]. *)
Definition ledger_kept (w w' : World) : Prop :=
  lottery_pot w' = lottery_pot w /\ users w' = users w
  /\ config w' = config w /\ outside w' = outside w
  /\ map forget_won (lottery_tickets w') = map forget_won (lottery_tickets w).

(** The node as the next [transfer_sol] call of a world will meet it. *)
Definition rpc_of (w : World) : Rpc :=
  node (outside w) (List.length (requests w)).

(** The amount [transfer_sol] settles on before it converts to lamports:
    the requested amount, or with the cap flag the maximum transferable
    when the request exceeds it. *)
Definition settled_amount (max_transferable amount_sol : float) (cap : bool)
  : float :=
  if cap then
    if (max_transferable <? amount_sol)%float
    then max_transferable else amount_sol
  else amount_sol.

(** The ways a transfer can fail before the node accepts it: a source key
    that does not parse, a balance that does not cover the rent-exemption
    minimum (or, without the cap flag, the amount plus that minimum), a
    destination that does not parse, a node that fails to give a blockhash
    or to take the transaction. *)
Definition transfer_failure (rpc : Rpc) (from_private_key to_address : string)
    (amount_sol : float) (cap : bool) : Prop :=
  (exists e, keypair_from_private_key rpc from_private_key = Raise e)
  \/ (exists sender,
        keypair_from_private_key rpc from_private_key = Ok sender
        /\ ((get_onchain_balance rpc sender - MIN_RENT_EXEMPT_SOL <=? 0)%float
            = true
            \/ (cap = false
                /\ (get_onchain_balance rpc sender
                    <? amount_sol + MIN_RENT_EXEMPT_SOL)%float = true)))
  \/ (exists e, public_key rpc to_address = Raise e)
  \/ (exists e, get_latest_blockhash rpc = Raise e)
  \/ (forall tx, exists e, send_transaction rpc tx = Raise e).

(** The pot a draw of [lottery] reads: [lottery_info[0] if lottery_info
    else 0.0]. *)
Definition pot_read (lottery : string) (w : World) : float :=
  match find (fun r => String.eqb (pot_type r) lottery) (lottery_pot w) with
  | Some r => pot r
  | None => 0.0%float
  end.

(** The job that [schedule_draw] queues from two readings of the clock. *)
Definition job_for (lottery : string) (now0 now : datetime) : Job :=
  let next_draw_dt := get_next_draw_datetime now0 lottery in
  let delay := next_draw_dt - now in
  {| job_name := lottery;
     job_delay := if delay <? 0 then 0 else delay;
     job_lottery_type := lottery;
     job_draw_datetime := next_draw_dt |}.

(** [sum(prizes)], added from the left starting at zero. *)
Definition sum_floats (xs : list float) : float :=
  fold_left (fun acc x => (acc + x)%float) xs 0.0%float.

(** The number of distinct owners in a pool of entries. *)
Definition distinct_owners (entries : list Z) : nat :=
  List.length (nodup Z.eq_dec entries).

(** The rolls counter is the only part of the world a selection touches. *)
Definition only_rolls (w w' : World) : Prop := exists n, w' = set_rolls w n.

End Statements.

(** ** Concrete worlds *)

Module Scenario.
Import Clock Py Model.

(** The draw instant 2024-03-10T20:00:00+00:00, a Sunday. *)
Definition window_2000 : datetime := sunday_2024_03_10 20 0 0.

(** A node on which every step of a transfer succeeds: every wallet holds
    1 SOL and every transaction is accepted. *)
Definition accepting_node : Rpc :=
  {| keypair_from_private_key := fun key => Ok ("wallet-of-" ++ key)%string;
     get_onchain_balance := fun _ => 1.0%float;
     public_key := fun address => Ok address;
     transfer_instruction := fun _ => Ok tt;
     get_latest_blockhash := Ok "blockhash";
     send_transaction := fun _ => Ok (Some "signature") |}.

(** A node that raises on [send_transaction]. *)
Definition refusing_node : Rpc :=
  {| keypair_from_private_key := fun key => Ok ("wallet-of-" ++ key)%string;
     get_onchain_balance := fun _ => 1.0%float;
     public_key := fun address => Ok address;
     transfer_instruction := fun _ => Ok tt;
     get_latest_blockhash := Ok "blockhash";
     send_transaction := fun _ => Raise "RPCException" |}.

(** A node on which the sender holds 0.005 SOL. *)
Definition short_node : Rpc :=
  {| keypair_from_private_key := fun key => Ok ("wallet-of-" ++ key)%string;
     get_onchain_balance := fun _ => 0.005%float;
     public_key := fun address => Ok address;
     transfer_instruction := fun _ => Ok tt;
     get_latest_blockhash := Ok "blockhash";
     send_transaction := fun _ => Ok (Some "signature") |}.

Definition alice : User :=
  {| user_id := 1; wallet_address := "alice-wallet";
     private_key := "alice-key"; username := "alice" |}.

Definition with_payout : Config :=
  {| OPERATOR_PRIVATE_KEY_BASE58 := "operator-key";
     OPERATOR_WALLET_ADDRESS := Some "operator-wallet";
     OPERATOR_PAYOUT_WALLET_ADDRESS := Some "payout-wallet" |}.

Definition without_payout : Config :=
  {| OPERATOR_PRIVATE_KEY_BASE58 := "operator-key";
     OPERATOR_WALLET_ADDRESS := Some "operator-wallet";
     OPERATOR_PAYOUT_WALLET_ADDRESS := None |}.

(** The clock reads [start], then one second more at every reading; the
    random source answers 0; the node is [rpc] at every call. *)
Definition ticking (start : datetime) (rpc : Rpc) : Outside :=
  {| clock := fun n => start + Z.of_nat n * SECOND;
     entropy := fun _ => 0%nat;
     node := fun _ => rpc |}.

(** A freshly initialised bot with one user, at 19:30:00 that Sunday. *)
Definition opening (cfg : Config) (rpc : Rpc) : World :=
  {| lottery_tickets := [];
     lottery_pot := initial_pot_rows;
     users := [alice];
     job_queue := [];
     requests := [];
     submitted := [];
     ticks := 0;
     rolls := 0;
     config := cfg;
     outside := ticking (sunday_2024_03_10 19 30 0) rpc |}.

(** Alice's ticket for the [lottery] draw of [window_2000]: quantity 1,
    0.001 SOL paid, not drawn. *)
Definition alice_ticket (lottery : string) : Ticket :=
  {| id := 1; telegram_id := 1; lottery_type := lottery;
     draw_date := window_2000; ticket_count := 1;
     amount_spent := 0.001%float; won := 0.0%float; drawn := 0;
     purchased_at := sunday_2024_03_10 19 30 0 |}.

(** The ledger with that one ticket sold and its price in the pot, the
    clock starting at [start]. *)
Definition one_ticket_sold (lottery : string) (cfg : Config) (rpc : Rpc)
    (start : datetime) : World :=
  {| lottery_tickets := [alice_ticket lottery];
     lottery_pot :=
       map (fun r => if String.eqb (pot_type r) lottery
                     then add_to_pot 0.001%float r else r)
           initial_pot_rows;
     users := [alice];
     job_queue := [];
     requests := [];
     submitted := [];
     ticks := 0;
     rolls := 0;
     config := cfg;
     outside := ticking start rpc |}.

(** The same ledger on a node that refuses the first transaction it is
    given and accepts every later one. *)
Definition one_ticket_sold_first_refused (lottery : string) (cfg : Config)
    (start : datetime) : World :=
  {| lottery_tickets := [alice_ticket lottery];
     lottery_pot :=
       map (fun r => if String.eqb (pot_type r) lottery
                     then add_to_pot 0.001%float r else r)
           initial_pot_rows;
     users := [alice];
     job_queue := [];
     requests := [];
     submitted := [];
     ticks := 0;
     rolls := 0;
     config := cfg;
     outside :=
       {| clock := fun n => start + Z.of_nat n * SECOND;
          entropy := fun _ => 0%nat;
          node := fun n => match n with
                           | O => refusing_node
                           | S _ => accepting_node
                           end |} |}.

(** The world left by a run, whatever it returned. *)
Definition after {A} (m : M A) (w : World) : World := snd (m w).

(** The world left by [n] runs in a row. *)
Fixpoint after_times {A} (n : nat) (m : M A) (w : World) : World :=
  match n with
  | O => w
  | S k => after_times k m (after m w)
  end.

(** The value a run returned, if it returned. *)
Definition value {A} (m : M A) (w : World) : option A :=
  match fst (m w) with
  | Ok a => Some a
  | Raise _ => None
  end.

End Scenario.

(** ** The users table and the wallet handlers *)

Module Accounts.
Import Clock Py Model Statements.
Local Open Scope monad_scope.

Definition set_users (w : World) (us : list User) : World :=
  {| lottery_tickets := lottery_tickets w; lottery_pot := lottery_pot w;
     users := us; job_queue := job_queue w; requests := requests w;
     submitted := submitted w; ticks := ticks w; rolls := rolls w;
     config := config w; outside := outside w |}.

(** [create_user]: [INSERT OR REPLACE INTO users ...].  [telegram_id] is
    the primary key, so a row with the same id is removed before the new
    row goes in.  The clock is read for [created_at], a column that is not
    among the modelled ones. *)
Definition create_user (tid : Z) (address key name : string) : M unit :=
  datetime_now ;;;
  modify (fun w =>
    set_users w
      (filter (fun u => negb (user_id u =? tid)) (users w)
       ++ [ {| user_id := tid; wallet_address := address;
               private_key := key; username := name |} ])).

Definition rename (name : string) (u : User) : User :=
  {| user_id := user_id u; wallet_address := wallet_address u;
     private_key := private_key u; username := name |}.

(** [UPDATE users SET username=? WHERE telegram_id=?]. *)
Definition update_username (tid : Z) (name : string) : M unit :=
  modify (fun w =>
    set_users w
      (map (fun u => if user_id u =? tid then rename name u else u)
           (users w))).

(** [DELETE FROM users WHERE telegram_id=?]. *)
Definition delete_user (tid : Z) : M unit :=
  modify (fun w =>
    set_users w (filter (fun u => negb (user_id u =? tid)) (users w))).

(** [create_wallet_callback]: nothing happens for a user who has a row;
    otherwise the freshly generated pair [(wallet_address, private_key)],
    passed in as [generated], is stored with the default empty username.
    The result tells whether a wallet was created. *)
Definition create_wallet_callback (tid : Z) (generated : string * string)
  : M bool :=
  existing <- get_user tid ;;
  match existing with
  | Some _ => ret false
  | None =>
      create_user tid (fst generated) (snd generated) "" ;;;
      ret true
  end.

(** [import_wallet_from_secret]: the address and the secret, or
    [(None, None)] when the key library raises. *)
Definition import_wallet_from_secret (secret_key_str : string)
  : M (option string * option string) :=
  rpc <- gets rpc_of ;;
  match keypair_from_private_key rpc secret_key_str with
  | Ok address => ret (Some address, Some secret_key_str)
  | Raise _ => ret (None, None)
  end.

(** [receive_import_wallet], on the stripped text of the message.  The
    result tells whether the wallet was imported. *)
Definition receive_import_wallet (tid : Z) (private_key_input : string)
  : M bool :=
  imported <- import_wallet_from_secret private_key_input ;;
  if negb (truthy (fst imported)) then ret false
  else
    create_user tid (py_str (fst imported)) (py_str (snd imported)) "" ;;;
    ret true.

(** [confirm_delete_wallet_callback] and [receive_username_callback], as
    far as the databases go. *)
Definition confirm_delete_wallet_callback (tid : Z) : M unit :=
  delete_user tid.

Definition receive_username_callback (tid : Z) (new_username : string)
  : M unit :=
  update_username tid new_username.

End Accounts.

(** ** The pending purchase of a chat session *)

Module Sessions.
Import Clock Py Model Statements.
Local Open Scope monad_scope.

(** The value stored under ["pending_purchase"] in [context.user_data]. *)
Record PendingPurchase := {
  pending_lottery_type : string;
  pending_ticket_price : float;
  pending_fee : float;
  pending_total_cost : float
}.

(** A confirmation handler together with the session entry it reads and
    pops: the entry is popped only when the user row and the entry are
    both there, and then before the transfer is attempted. *)
Definition confirm_buy_ticket_in_session (lottery : string) (tid : Z)
    (pending_purchase : option PendingPurchase)
  : M (PurchaseOutcome * option PendingPurchase) :=
  user <- get_user tid ;;
  match user, pending_purchase with
  | Some _, Some purchase =>
      outcome <-
        confirm_buy_ticket lottery tid (Some (pending_ticket_price purchase)) ;;
      ret (outcome, None)
  | _, _ => ret (NoPendingPurchase, pending_purchase)
  end.

(** [cancel_buy_ticket_callback]: the entry is popped if present. *)
Definition cancel_buy_ticket_callback
    (pending_purchase : option PendingPurchase) : option PendingPurchase :=
  match pending_purchase with
  | Some _ => None
  | None => pending_purchase
  end.

End Sessions.

(** ** Withdrawals *)

Module Withdrawals.
Import Clock Py Model Statements.
Local Open Scope monad_scope.

Inductive WithdrawOutcome : Type :=
| InvalidAmount
| UserNotFound
| InsufficientFunds
| WithdrawalSuccessful (tx_hash : string)
| WithdrawalFailed.

(** [receive_withdraw_amount].  [parsed] is the outcome of
    [float(update.message.text.strip())]; [withdraw_address] is the entry
    that [receive_withdraw_address] stored in the session before the
    conversation came to this step.  The balance shown to the user and the
    balance that [transfer_sol] checks are both asked of the node as it
    stands for the coming transfer. *)
Definition receive_withdraw_amount (parsed : exc float) (tid : Z)
    (withdraw_address : string) : M WithdrawOutcome :=
  match parsed with
  | Raise _ => ret InvalidAmount
  | Ok amount =>
      if (amount <=? 0)%float then ret InvalidAmount
      else
        user <- get_user tid ;;
        match user with
        | None => ret UserNotFound
        | Some u =>
            current_balance <-
              gets (fun w => get_onchain_balance (rpc_of w) (wallet_address u)) ;;
            if (current_balance <? amount)%float then ret InsufficientFunds
            else
              tx_hash <-
                transfer_sol (private_key u) withdraw_address amount false ;;
              if truthy tx_hash
              then ret (WithdrawalSuccessful (py_str tx_hash))
              else ret WithdrawalFailed
        end
  end.

End Withdrawals.

(** ** Transaction history and ticket statistics *)

Module History.
Import Clock Py Model Statements.
Local Open Scope monad_scope.

(** [l[start:stop]] with Python's rules: a negative index counts from the
    end, an index beyond either end is clamped, and the slice is empty when
    the start is not before the stop. *)
Definition slice_index (n i : Z) : Z :=
  if i <? 0 then (if i + n <? 0 then 0 else i + n)
  else if n <? i then n else i.

Definition py_slice {A} (l : list A) (start stop : Z) : list A :=
  let n := Z.of_nat (List.length l) in
  let first := slice_index n start in
  let last := slice_index n stop in
  firstn (Z.to_nat (last - first)) (skipn (Z.to_nat first) l).

(** What [transaction_history_callback] computes from the user's tickets
    and the page number (lines 1313-1331): the tickets shown, and whether
    the Previous and the Next button are offered.  No ticket shown means
    the text "No transaction history available.". *)
Record HistoryView := {
  page_tickets : list Ticket;
  previous_button : bool;
  next_button : bool
}.

Definition history_view (tickets : list Ticket) (page : Z) : HistoryView :=
  let page_size := 5 in
  let total := Z.of_nat (List.length tickets) in
  let start := (page - 1) * page_size in
  let stop := start + page_size in
  {| page_tickets := py_slice tickets start stop;
     previous_button := 0 <? start;
     next_button := stop <? total |}.

(** ["Won" if won > 0 else ("Drawn" if drawn else "Pending")]. *)
Definition ticket_status (t : Ticket) : string :=
  if (0 <? won t)%float then "Won"
  else if negb (drawn t =? 0) then "Drawn"
  else "Pending".

(** [SELECT SUM(ticket_count) ...]: NULL over no row. *)
Definition sql_sum (xs : list Z) : option Z :=
  match xs with
  | [] => None
  | _ :: _ => Some (fold_left Z.add xs 0)
  end.

(** [get_tickets_stats]: the tickets sold for the next draw and the pot.
    [row[0] if row[0] else 0] turns a NULL and a zero sum into 0. *)
Definition get_tickets_stats (lottery : string) : M (Z * float) :=
  now <- datetime_now ;;
  let next_draw := get_next_draw_datetime now lottery in
  rows <- undrawn_rows lottery next_draw ;;
  let total_tickets :=
    match sql_sum (map snd rows) with
    | Some total => if total =? 0 then 0 else total
    | None => 0
    end in
  lottery_info <- get_lottery_info lottery ;;
  let current_pot :=
    match lottery_info with
    | Some info => fst (fst info)
    | None => 0.0%float
    end in
  ret (total_tickets, current_pot).

End History.

(** ** Vocabulary of the further statements *)

Module MoreStatements.
Import Clock Py Model Statements History.

(** The longest wait of a cadence: an hour, a day, a week. *)
Definition period (c : Cadence) : Z :=
  match c with
  | Hourly => timedelta_hours 1
  | Daily => timedelta_days 1
  | Weekly => timedelta_days 7
  end.

(** The chances an owner holds in the rows of a draw: the sum of the
    positive ticket counts of the owner's rows. *)
Definition chances (owner : Z) (rows : list (Z * Z)) : nat :=
  fold_right
    (fun row total =>
       if fst row =? owner then (Z.to_nat (snd row) + total)%nat else total)
    0%nat rows.

(** The requests the payout loop enters for the winners from index [i]
    on: one per winner with a user row, for the prize of the winner's
    place, to the wallet on file, with the cap flag. *)
Fixpoint winner_requests (us : list User) (prizes : list float) (i : nat)
    (winners : list Z) : list Request :=
  match winners with
  | [] => []
  | winner_id :: rest =>
      match find (fun u => user_id u =? winner_id) us with
      | Some u => [ {| req_to := wallet_address u;
                       req_amount := nth i prizes 0.0%float;
                       req_cap := true |} ]
      | None => []
      end ++ winner_requests us prizes (S i) rest
  end.

(** What neither a selection nor a payout touches: the job queue, the
    count of clock readings, the outside, the users and the
    configuration. *)
Definition quiet (w w' : World) : Prop :=
  job_queue w' = job_queue w /\ ticks w' = ticks w
  /\ outside w' = outside w /\ users w' = users w /\ config w' = config w.

(** The request for the operator cut, if a payout address is configured. *)
Definition cut_request (cfg : Config) (operator_cut : float) : list Request :=
  match OPERATOR_PAYOUT_WALLET_ADDRESS cfg with
  | Some address => [ {| req_to := address; req_amount := operator_cut;
                         req_cap := false |} ]
  | None => []
  end.

(** What a user has been shown after browsing the history from page 1 to
    page [k], in that order. *)
Fixpoint pages_upto (tickets : list Ticket) (k : nat) : list Ticket :=
  match k with
  | O => []
  | S k' =>
      pages_upto tickets k'
      ++ page_tickets (history_view tickets (Z.of_nat (S k')))
  end.

(** No ticket of the ledger is marked as drawn. *)
Definition none_drawn (w : World) : bool :=
  forallb (fun t => drawn t =? 0) (lottery_tickets w).

End MoreStatements.

(** * Properties *)

(** ** The draw-time computation *)

Module ClockFacts.
Import Clock.

Ltac unfold_clock :=
  unfold on_the_hour, at_2000, sunday_2000, replace, hour, minute, second,
    microsecond, weekday, day_index, timedelta_hours, timedelta_days,
    DAY, HOUR, MINUTE, SECOND in *.

Ltac clock_arith := unfold_clock; Z.div_mod_to_equations; lia.

Ltac open_next_draw :=
  cbv beta iota zeta
      delta [get_next_draw_datetime String.eqb Ascii.eqb Bool.eqb].

Lemma hourly_after now : now < get_next_draw_datetime now "hourly".
Proof. open_next_draw. clock_arith. Qed.

Lemma hourly_rule now : on_the_hour (get_next_draw_datetime now "hourly").
Proof. open_next_draw. clock_arith. Qed.

Lemma hourly_first now t :
  now < t -> t < get_next_draw_datetime now "hourly" -> ~ on_the_hour t.
Proof. open_next_draw. intros H1 H2 H3. clock_arith. Qed.

Ltac split_on_clock_test :=
  match goal with
  | |- context [ if ?a <? ?b then _ else _ ] =>
      destruct (Z.ltb_spec a b)
  end.

Lemma daily_after now : now < get_next_draw_datetime now "daily".
Proof.
  open_next_draw. split_on_clock_test; clock_arith.
Qed.

Lemma daily_rule now : at_2000 (get_next_draw_datetime now "daily").
Proof.
  open_next_draw. split_on_clock_test; clock_arith.
Qed.

Lemma daily_first now t :
  now < t -> t < get_next_draw_datetime now "daily" -> ~ at_2000 t.
Proof.
  open_next_draw. intros H1 H2 H3.
  revert H2. split_on_clock_test; intros H2; clock_arith.
Qed.

Lemma weekly_after now : now < get_next_draw_datetime now "weekly".
Proof.
  open_next_draw. split_on_clock_test; clock_arith.
Qed.

Lemma day_index_shift now k :
  day_index (replace now 20 0 0 0 + timedelta_days k) = day_index now + k.
Proof. clock_arith. Qed.

Lemma at_2000_shift now k : at_2000 (replace now 20 0 0 0 + timedelta_days k).
Proof. clock_arith. Qed.

Lemma sunday_ahead d k : ((d + ((6 - d mod 7) mod 7 + 7 * k)) mod 7) = 6.
Proof. Z.div_mod_to_equations; lia. Qed.

Lemma weekly_shape now :
  exists k,
    get_next_draw_datetime now "weekly"
    = replace now 20 0 0 0 + timedelta_days ((6 - weekday now) mod 7 + 7 * k).
Proof.
  open_next_draw. split_on_clock_test; cbv iota; [exists 0 | exists 1];
    unfold timedelta_days, DAY, HOUR, MINUTE, SECOND; lia.
Qed.

Lemma weekly_rule now : sunday_2000 (get_next_draw_datetime now "weekly").
Proof.
  destruct (weekly_shape now) as [k ->]. split.
  - unfold weekday at 1. rewrite day_index_shift. apply sunday_ahead.
  - apply at_2000_shift.
Qed.

Lemma at_2000_inv t : at_2000 t -> t = day_index t * DAY + 20 * HOUR.
Proof. intros H. clock_arith. Qed.

Lemma day_decomposition now :
  exists r, 0 <= r < DAY /\ now = day_index now * DAY + r.
Proof. exists (now mod DAY). clock_arith. Qed.

Lemma weekly_first now t :
  now < t -> t < get_next_draw_datetime now "weekly" -> ~ sunday_2000 t.
Proof.
  intros H1 H2 [Hsun H2000].
  apply at_2000_inv in H2000.
  destruct (day_decomposition now) as (r & Hr & Hnow).
  revert H2. open_next_draw. unfold weekday in *.
  unfold replace, timedelta_days.
  set (D := day_index now) in *. set (T := day_index t) in *.
  assert (Ha : 0 <= (6 - D mod 7) mod 7 < 7) by (apply Z.mod_pos_bound; lia).
  generalize (sunday_ahead D 0). rewrite Z.mul_0_r, Z.add_0_r.
  set (a := (6 - D mod 7) mod 7) in *. intros Hda.
  clearbody D T a.
  split_on_clock_test; cbv iota; intros H2;
    unfold DAY, HOUR, MINUTE, SECOND in *;
    Z.div_mod_to_equations; lia.
Qed.

(** C6.  For each of the three cadences and every reading of the clock,
    the next draw time lies strictly after the reading, satisfies the rule
    of the cadence (on the hour; 20:00:00 UTC; Sunday 20:00:00 UTC), and is
    the first such instant after the reading.  Readings that are themselves
    draw instants are included: the draw after them is the following one. *)
Theorem next_draw_strictly_after_now (c : Cadence) (now : datetime) :
  let next := get_next_draw_datetime now (cadence_name c) in
  now < next
  /\ draw_rule (cadence_name c) next
  /\ (forall t, now < t -> t < next -> ~ draw_rule (cadence_name c) t).
Proof.
  destruct c; cbv zeta; cbn [cadence_name].
  - change (draw_rule "hourly") with on_the_hour.
    split; [apply hourly_after|]. split; [apply hourly_rule|].
    intros t. apply hourly_first.
  - change (draw_rule "daily") with at_2000.
    split; [apply daily_after|]. split; [apply daily_rule|].
    intros t. apply daily_first.
  - change (draw_rule "weekly") with sunday_2000.
    split; [apply weekly_after|]. split; [apply weekly_rule|].
    intros t. apply weekly_first.
Qed.

(** At 20:00:00 on Sunday 2024-03-10, a draw instant of all three
    cadences, the next draws are at 21:00 the same day, at 20:00 on Monday
    and at 20:00 on the following Sunday. *)
Example next_draw_at_a_draw_instant :
  let now := sunday_2024_03_10 20 0 0 in
  get_next_draw_datetime now "hourly" = sunday_2024_03_10 21 0 0
  /\ get_next_draw_datetime now "daily" = now + timedelta_days 1
  /\ get_next_draw_datetime now "weekly" = now + timedelta_days 7.
Proof. vm_compute. auto. Qed.

End ClockFacts.

(** ** Running monadic code *)

Module Run.
Import Clock Py Model Statements.
Local Open Scope monad_scope.

Lemma bind_ok {A B} (m : M A) (k : A -> M B) w a w' :
  m w = (Ok a, w') -> bind m k w = k a w'.
Proof. unfold bind. intros ->. reflexivity. Qed.

Lemma bind_raise {A B} (m : M A) (k : A -> M B) w e w' :
  m w = (Raise e, w') -> bind m k w = (Raise e, w').
Proof. unfold bind. intros ->. reflexivity. Qed.

Lemma bind_assoc {A B C} (m : M A) (k : A -> M B) (h : B -> M C) w :
  bind (bind m k) h w = bind m (fun a => bind (k a) h) w.
Proof. unfold bind. destruct (m w) as [[a|e] w']; reflexivity. Qed.

Lemma bind_gets {A B} (f : World -> A) (k : A -> M B) w :
  bind (gets f) k w = k (f w) w.
Proof. reflexivity. Qed.

Lemma bind_ret {A B} (a : A) (k : A -> M B) w : bind (ret a) k w = k a w.
Proof. reflexivity. Qed.

Lemma ledger_kept_refl w : ledger_kept w w.
Proof. unfold ledger_kept. auto. Qed.

Lemma ledger_kept_trans w1 w2 w3 :
  ledger_kept w1 w2 -> ledger_kept w2 w3 -> ledger_kept w1 w3.
Proof.
  unfold ledger_kept. intros (a1 & a2 & a3 & a4 & a5) (b1 & b2 & b3 & b4 & b5).
  repeat split; congruence.
Qed.

End Run.

(** ** Winner selection *)

Module WinnerFacts.
Import Clock Py Model Statements Run.

Lemma in_without x chosen entries :
  In x (without chosen entries) <-> In x entries /\ x <> chosen.
Proof.
  unfold without. rewrite filter_In.
  destruct (Z.eqb_spec x chosen); simpl; intuition congruence.
Qed.

Lemma nodup_filter (f : Z -> bool) l :
  nodup Z.eq_dec (filter f l) = filter f (nodup Z.eq_dec l).
Proof.
  induction l as [|x l IH]; simpl; [reflexivity|].
  destruct (f x) eqn:Hf.
  - simpl. destruct (in_dec Z.eq_dec x (filter f l)) as [Hin|Hin];
      destruct (in_dec Z.eq_dec x l) as [Hin'|Hin'].
    + exact IH.
    + apply filter_In in Hin. tauto.
    + exfalso. apply Hin. apply filter_In. auto.
    + simpl. rewrite Hf. f_equal. exact IH.
  - destruct (in_dec Z.eq_dec x l); simpl; [exact IH|].
    rewrite Hf. exact IH.
Qed.

Lemma length_filter_out chosen l :
  NoDup l -> In chosen l ->
  S (List.length (filter (fun x => negb (x =? chosen)) l)) = List.length l.
Proof.
  induction 1 as [|x l Hx Hnd IH]; simpl; [tauto|].
  intros [->|Hin].
  - rewrite Z.eqb_refl. simpl. f_equal.
    clear IH. induction l as [|y l IH]; simpl; [reflexivity|].
    destruct (Z.eqb_spec y chosen) as [->|]; simpl.
    + exfalso. apply Hx. left. reflexivity.
    + f_equal. apply IH.
      * intro H. apply Hx. right. exact H.
      * inversion Hnd. assumption.
  - destruct (Z.eqb_spec x chosen) as [->|]; simpl; [tauto|].
    f_equal. apply IH. exact Hin.
Qed.

Lemma distinct_without chosen entries :
  In chosen entries ->
  S (distinct_owners (without chosen entries)) = distinct_owners entries.
Proof.
  intros Hin. unfold distinct_owners, without. rewrite nodup_filter.
  apply length_filter_out.
  - apply NoDup_nodup.
  - apply nodup_In. exact Hin.
Qed.

Lemma distinct_nil : distinct_owners [] = 0%nat.
Proof. reflexivity. Qed.

Lemma distinct_nonempty x l : (1 <= distinct_owners (x :: l))%nat.
Proof.
  unfold distinct_owners.
  assert (H : In x (nodup Z.eq_dec (x :: l))) by (apply nodup_In; left; auto).
  destruct (nodup Z.eq_dec (x :: l)); simpl in *; [tauto | lia].
Qed.

Lemma secrets_choice_spec seq w :
  seq <> [] ->
  exists x, In x seq
            /\ secrets_choice seq w = (Ok x, set_rolls w (S (rolls w))).
Proof.
  intros Hne. destruct seq as [|y l]; [congruence|].
  eexists. split; [|reflexivity].
  apply nth_In. apply Nat.mod_upper_bound. simpl. lia.
Qed.

Lemma nonempty_iff {A} (l : list A) : nonempty l = true <-> l <> [].
Proof. destruct l; simpl; split; congruence. Qed.

Lemma nonempty_false {A} (l : list A) : nonempty l = false -> l = [].
Proof. destruct l; simpl; congruence. Qed.

Lemma distinct_of_nonempty l : l <> [] -> (1 <= distinct_owners l)%nat.
Proof. destruct l; [congruence|]. intros _. apply distinct_nonempty. Qed.

Lemma only_rolls_refl w : only_rolls w w.
Proof. exists (rolls w). destruct w; reflexivity. Qed.

Lemma only_rolls_step w n m : only_rolls w (set_rolls (set_rolls w n) m).
Proof. exists m. reflexivity. Qed.

Lemma select_winners_spec entries w :
  exists ws w',
    select_winners entries w = (Ok ws, w')
    /\ only_rolls w w'
    /\ NoDup ws /\ incl ws entries
    /\ List.length ws = Nat.min 3 (distinct_owners entries).
Proof.
  unfold select_winners.
  destruct (nonempty entries) eqn:N1.
  2:{ apply nonempty_false in N1. subst entries.
      exists [], w. cbn. repeat split.
      - apply only_rolls_refl.
      - constructor.
      - apply incl_nil_l. }
  apply nonempty_iff in N1.
  destruct (secrets_choice_spec entries w N1) as (first & Hin1 & E1).
  pose proof (distinct_without first entries Hin1) as D1.
  rewrite (bind_ok _ _ _ _ _ (bind_ok _ _ _ _ _ E1)).
  unfold ret at 1. cbn [fst snd app].
  set (w1 := set_rolls w (S (rolls w))) in *.
  set (rest1 := without first entries) in *.
  destruct (nonempty rest1) eqn:N2.
  2:{ apply nonempty_false in N2. rewrite N2 in *.
      exists [first], w1. cbn. repeat split.
      - exists (S (rolls w)). reflexivity.
      - repeat constructor. simpl. tauto.
      - intros x [<-|[]]. exact Hin1.
      - rewrite distinct_nil in D1. rewrite <- D1. reflexivity. }
  apply nonempty_iff in N2.
  destruct (secrets_choice_spec rest1 w1 N2) as (second & Hin2 & E2).
  pose proof (distinct_without second rest1 Hin2) as D2.
  rewrite (bind_ok _ _ _ _ _ (bind_ok _ _ _ _ _ E2)).
  unfold ret at 1. cbn [fst snd app].
  set (w2 := set_rolls w1 (S (rolls w1))) in *.
  set (rest2 := without second rest1) in *.
  apply in_without in Hin2. destruct Hin2 as [Hin2 Hne2].
  destruct (nonempty rest2) eqn:N3.
  2:{ apply nonempty_false in N3. rewrite N3 in *.
      exists [first; second], w2. cbn. repeat split.
      - apply only_rolls_step.
      - repeat constructor; simpl; intuition congruence.
      - intros x [<-|[<-|[]]]; assumption.
      - rewrite distinct_nil in D2. rewrite <- D1, <- D2. reflexivity. }
  apply nonempty_iff in N3.
  destruct (secrets_choice_spec rest2 w2 N3) as (third & Hin3 & E3).
  rewrite (bind_ok _ _ _ _ _ E3).
  apply in_without in Hin3. destruct Hin3 as [Hin3 Hne3].
  apply in_without in Hin3. destruct Hin3 as [Hin3 Hne3'].
  exists [first; second; third], (set_rolls w2 (S (rolls w2))).
  cbn. repeat split.
  - exists (S (rolls w2)). reflexivity.
  - repeat constructor; simpl; intuition congruence.
  - intros x [<-|[<-|[<-|[]]]]; assumption.
  - pose proof (distinct_of_nonempty rest2 N3).
    rewrite <- D1, <- D2. destruct (distinct_owners rest2); [lia|reflexivity].
Qed.

(** C3.  Whatever the random source answers, the winners drawn from a pool
    of entries are pairwise distinct owners of the pool, and there are
    exactly as many of them as the pool has distinct owners, up to three:
    three for a pool of three or more owners, one or two for a pool of one
    or two owners (and none for an empty pool). *)
Theorem winners_are_distinct_owners (entries : list Z) (w : World) :
  exists ws, fst (select_winners entries w) = Ok ws
             /\ NoDup ws
             /\ incl ws entries
             /\ List.length ws = Nat.min 3 (distinct_owners entries).
Proof.
  destruct (select_winners_spec entries w) as (ws & w' & E & _ & H).
  exists ws. rewrite E. split; [reflexivity | exact H].
Qed.

End WinnerFacts.

(** ** Floating-point comparisons *)

Module FloatFacts.
Import Py.
Local Open Scope float_scope.

Lemma ltb_leb x y : (x <? y) = true -> (x <=? y) = true.
Proof.
  rewrite ltb_spec, leb_spec. unfold SFltb, SFleb.
  destruct (SFcompare _ _) as [[]|]; congruence.
Qed.

Lemma SFcompare_refl x : x <> S754_nan -> SFcompare x x = Some Eq.
Proof.
  destruct x as [[]|[]| |[] m e]; simpl; try congruence; intros _;
    rewrite Z.compare_refl; fold (Pos.compare m m);
    rewrite Pos.compare_refl; reflexivity.
Qed.

Lemma leb_refl x : Prim2SF x <> S754_nan -> (x <=? x) = true.
Proof.
  intros H. rewrite leb_spec. unfold SFleb. rewrite SFcompare_refl; auto.
Qed.

Lemma int_of_float_mul_not_nan x c n :
  int_of_float (x * c) = Ok n -> Prim2SF x <> S754_nan.
Proof.
  unfold int_of_float. rewrite mul_spec. intros H E. rewrite E in H.
  simpl in H. discriminate.
Qed.

End FloatFacts.

(** ** [transfer_sol] *)

Module TransferFacts.
Import Clock Py Model Statements Run FloatFacts.
Local Open Scope monad_scope.

Section OneCall.

Variables (from_private_key to_address : string) (amount_sol : float).
Variable cap : bool.
Variable w : World.

Let rpc := rpc_of w.
Let entered :=
  set_requests w
    (requests w ++
     [ {| req_to := to_address; req_amount := amount_sol; req_cap := cap |} ]).
Let call := transfer_sol from_private_key to_address amount_sol cap w.

(** Every run of [transfer_sol] is of one of two kinds.  Either nothing is
    handed to the node and the result is [None]; or every step up to
    [send_transaction] succeeded, one transaction was handed over, and the
    result is the node's answer, or [None] if sending raised. *)
Lemma transfer_sol_cases :
  call = (Ok None, entered)
  \/ exists sender receiver lamports blockhash,
       let balance := get_onchain_balance rpc sender in
       let max_transferable := (balance - MIN_RENT_EXEMPT_SOL)%float in
       let sent := settled_amount max_transferable amount_sol cap in
       let tx := {| tx_from := sender; tx_to := receiver;
                    tx_lamports := lamports; tx_blockhash := blockhash |} in
       keypair_from_private_key rpc from_private_key = Ok sender
       /\ (max_transferable <=? 0)%float = false
       /\ (cap = false ->
           (balance <? amount_sol + MIN_RENT_EXEMPT_SOL)%float = false)
       /\ public_key rpc to_address = Ok receiver
       /\ int_of_float (sent * 1000000000)%float = Ok lamports
       /\ get_latest_blockhash rpc = Ok blockhash
       /\ call = (Ok match send_transaction rpc tx with
                     | Ok answer => answer
                     | Raise _ => None
                     end,
                  set_submitted entered (submitted w ++ [tx])).
Proof.
  subst call entered rpc. unfold rpc_of.
  cbv beta iota zeta
      delta [transfer_sol transfer_sol_body send_lamports settled_amount
             bind gets modify try_except lift ret].
  set (rpc := node (outside w) (List.length (requests w))).
  destruct (keypair_from_private_key rpc from_private_key) as [sender|e];
    [|left; reflexivity].
  destruct (get_onchain_balance rpc sender - MIN_RENT_EXEMPT_SOL <=? 0)%float
    eqn:Hmax; [left; reflexivity|].
  destruct cap; cbv beta iota delta [negb].
  - destruct (public_key rpc to_address) as [receiver|e] eqn:Hr;
      [|left; reflexivity].
    destruct (int_of_float _) as [lamports|e] eqn:Hl; [|left; reflexivity].
    destruct (transfer_instruction rpc lamports) as [[]|e];
      [|left; reflexivity].
    destruct (get_latest_blockhash rpc) as [blockhash|e] eqn:Hb;
      [|left; reflexivity].
    right. exists sender, receiver, lamports, blockhash.
    split; [reflexivity|]. split; [exact Hmax|]. split; [discriminate|].
    split; [reflexivity|]. split; [first [exact Hl | reflexivity]|].
    split; [reflexivity|].
    destruct (send_transaction rpc _) as [answer|e]; reflexivity.
  - destruct (get_onchain_balance rpc sender
              <? amount_sol + MIN_RENT_EXEMPT_SOL)%float eqn:Hbal;
      [left; reflexivity|].
    destruct (public_key rpc to_address) as [receiver|e] eqn:Hr;
      [|left; reflexivity].
    destruct (int_of_float _) as [lamports|e] eqn:Hl; [|left; reflexivity].
    destruct (transfer_instruction rpc lamports) as [[]|e];
      [|left; reflexivity].
    destruct (get_latest_blockhash rpc) as [blockhash|e] eqn:Hb;
      [|left; reflexivity].
    right. exists sender, receiver, lamports, blockhash.
    split; [reflexivity|]. split; [exact Hmax|].
    split; [intros _; exact Hbal|].
    split; [reflexivity|]. split; [first [exact Hl | reflexivity]|].
    split; [reflexivity|].
    destruct (send_transaction rpc _) as [answer|e]; reflexivity.
Qed.

End OneCall.

(** When the key parses, the balance exceeds the rent-exemption minimum
    (and, without the cap flag, covers the amount plus that minimum), the
    destination parses, and the conversion, the instruction and the
    blockhash succeed, the call hands over the transaction for the settled
    amount and returns the node's answer, or [None] if sending raised. *)
Lemma transfer_sol_sends key to amount cap w sender receiver lamports
    blockhash :
  let rpc := rpc_of w in
  let balance := get_onchain_balance rpc sender in
  let max_transferable := (balance - MIN_RENT_EXEMPT_SOL)%float in
  let sent := settled_amount max_transferable amount cap in
  let tx := {| tx_from := sender; tx_to := receiver;
               tx_lamports := lamports; tx_blockhash := blockhash |} in
  keypair_from_private_key rpc key = Ok sender ->
  (max_transferable <=? 0)%float = false ->
  (cap = false -> (balance <? amount + MIN_RENT_EXEMPT_SOL)%float = false) ->
  public_key rpc to = Ok receiver ->
  int_of_float (sent * 1000000000)%float = Ok lamports ->
  transfer_instruction rpc lamports = Ok tt ->
  get_latest_blockhash rpc = Ok blockhash ->
  transfer_sol key to amount cap w
  = (Ok match send_transaction rpc tx with
        | Ok answer => answer
        | Raise _ => None
        end,
     set_submitted
       (set_requests w
          (requests w
           ++ [ {| req_to := to; req_amount := amount; req_cap := cap |} ]))
       (submitted w ++ [tx])).
Proof.
  cbv zeta. unfold rpc_of. intros Hk Hmax Hbal Hr Hl Hi Hb.
  cbv beta iota zeta
      delta [transfer_sol transfer_sol_body send_lamports settled_amount
             bind gets modify try_except lift ret] in Hl |- *.
  rewrite Hk. cbv beta iota. rewrite Hmax.
  destruct cap; cbv beta iota delta [negb] in Hl |- *.
  - rewrite Hr. cbv beta iota. rewrite Hl. cbv beta iota.
    rewrite Hi. cbv beta iota. rewrite Hb. cbv beta iota.
    destruct (send_transaction _ _) as [answer|e]; reflexivity.
  - rewrite (Hbal eq_refl). rewrite Hr. cbv beta iota.
    rewrite Hl. cbv beta iota.
    rewrite Hi. cbv beta iota. rewrite Hb. cbv beta iota.
    destruct (send_transaction _ _) as [answer|e]; reflexivity.
Qed.

(** A call of [transfer_sol] changes nothing but the two logs. *)
Lemma transfer_sol_frame key to amount cap w :
  exists r w',
    transfer_sol key to amount cap w = (Ok r, w')
    /\ lottery_tickets w' = lottery_tickets w
    /\ lottery_pot w' = lottery_pot w
    /\ users w' = users w
    /\ job_queue w' = job_queue w
    /\ ticks w' = ticks w
    /\ config w' = config w
    /\ outside w' = outside w
    /\ requests w'
       = requests w
         ++ [ {| req_to := to; req_amount := amount; req_cap := cap |} ].
Proof.
  destruct (transfer_sol_cases key to amount cap w)
    as [E|(sender & receiver & lamports & blockhash & H)].
  - eexists _, _. split; [exact E|]. cbn. auto 10.
  - cbv zeta in H. destruct H as (_ & _ & _ & _ & _ & _ & E).
    eexists _, _. split; [exact E|]. cbn. auto 10.
Qed.

(** The request that paying one winner enters: none when the winner has no
    user row, else one for the prize, to the winner's wallet, with the cap
    flag set. *)
Lemma pay_winner_requests lottery draw prize winner_id acc w :
  requests (snd (pay_winner lottery draw prize winner_id acc w))
  = requests w
    ++ match find (fun u => user_id u =? winner_id) (users w) with
       | Some u => [ {| req_to := wallet_address u; req_amount := prize;
                        req_cap := true |} ]
       | None => []
       end.
Proof.
  unfold pay_winner, get_user. rewrite bind_gets.
  destruct (find _ (users w)) as [u|]; [|cbn; rewrite app_nil_r; reflexivity].
  rewrite bind_gets.
  destruct (transfer_sol_frame (OPERATOR_PRIVATE_KEY_BASE58 (config w))
              (wallet_address u) prize true w)
    as (r & w1 & E & _ & _ & _ & _ & _ & _ & _ & Hreq).
  rewrite (bind_ok _ _ _ _ _ E).
  destruct (truthy r); cbn; exact Hreq.
Qed.

(** C10.  [transfer_sol] always returns to its caller: whatever the key
    library and the node do, the call yields a value and never an exception.
    A result other than [None] is the answer of [send_transaction] to the one
    transaction the call handed over, after the key and the destination
    parsed, the balance sufficed and a blockhash was obtained; so every
    failure (insufficient balance, invalid destination, node error) yields
    [None]. *)
Theorem transfer_sol_never_raises
    (from_private_key to_address : string) (amount_sol : float) (cap : bool)
    (w : World) :
  let rpc := rpc_of w in
  let call := transfer_sol from_private_key to_address amount_sol cap w in
  exists r,
    fst call = Ok r
    /\ (transfer_failure rpc from_private_key to_address amount_sol cap ->
        r = None)
    /\ match r with
       | None => True
       | Some answer =>
           exists sender receiver blockhash tx,
             keypair_from_private_key rpc from_private_key = Ok sender
             /\ public_key rpc to_address = Ok receiver
             /\ get_latest_blockhash rpc = Ok blockhash
             /\ tx_from tx = sender /\ tx_to tx = receiver
             /\ tx_blockhash tx = blockhash
             /\ submitted (snd call) = submitted w ++ [tx]
             /\ send_transaction rpc tx = Ok (Some answer)
       end.
Proof.
  cbv zeta.
  destruct (transfer_sol_cases from_private_key to_address amount_sol cap w)
    as [E|(sender & receiver & lamports & blockhash & H)].
  - rewrite E. exists None. cbn. auto.
  - cbv zeta in H.
    destruct H as (Hk & Hmax & Hbal & Hr & Hl & Hb & E).
    rewrite E. cbn [fst snd].
    set (tx := {| tx_from := sender; tx_to := receiver;
                  tx_lamports := lamports; tx_blockhash := blockhash |}) in *.
    eexists. split; [reflexivity|]. split.
    + intros [[e He]|[(s' & Hs & Hf)|[[e He]|[[e He]|Hsend]]]];
        try congruence.
      * assert (s' = sender) by congruence. subst s'.
        destruct Hf as [Hf|[Hc Hf]]; [congruence|].
        rewrite (Hbal Hc) in Hf. discriminate.
      * destruct (Hsend tx) as [e ->]. reflexivity.
    + destruct (send_transaction (rpc_of w) tx) as [[answer|]|e] eqn:Hs;
        [|exact I|exact I].
      exists sender, receiver, blockhash, tx. cbn. auto 10.
Qed.

(** C9.  With the cap flag, a short balance reduces the amount instead of
    failing the transfer: once the key parses, the balance exceeds the
    rent-exemption minimum, the destination parses, and the conversion,
    the instruction and the blockhash succeed, exactly one transaction is
    handed to the node, for the lamports of the settled amount, which is
    the maximum transferable (balance minus the rent-exemption minimum)
    when the request exceeds it and the request itself otherwise, so never
    more than the request.  Conversely every transaction handed over with
    the flag carries the lamports of such an amount.  Without the flag, a
    balance below the amount plus the rent-exemption minimum makes the call
    return [None] with nothing handed to the node.  The transfer a draw
    requests for a winner's prize has the flag set. *)
Theorem capped_transfer_sends_at_most
    (from_private_key to_address : string) (amount_sol : float) (w : World) :
  let rpc := rpc_of w in
  (forall sender receiver lamports blockhash,
      let max_transferable :=
        (get_onchain_balance rpc sender - MIN_RENT_EXEMPT_SOL)%float in
      let sent := settled_amount max_transferable amount_sol true in
      let tx := {| tx_from := sender; tx_to := receiver;
                   tx_lamports := lamports; tx_blockhash := blockhash |} in
      let call := transfer_sol from_private_key to_address amount_sol true w in
      keypair_from_private_key rpc from_private_key = Ok sender ->
      (max_transferable <=? 0)%float = false ->
      public_key rpc to_address = Ok receiver ->
      int_of_float (sent * 1000000000)%float = Ok lamports ->
      transfer_instruction rpc lamports = Ok tt ->
      get_latest_blockhash rpc = Ok blockhash ->
      submitted (snd call) = submitted w ++ [tx]
      /\ fst call = Ok match send_transaction rpc tx with
                       | Ok answer => answer
                       | Raise _ => None
                       end
      /\ (sent <=? amount_sol)%float = true
      /\ ((max_transferable <? amount_sol)%float = true ->
          sent = max_transferable)
      /\ ((max_transferable <? amount_sol)%float = false ->
          sent = amount_sol))
  /\ (let call := transfer_sol from_private_key to_address amount_sol true w in
   submitted (snd call) = submitted w
   \/ exists sender tx,
        let max_transferable :=
          (get_onchain_balance rpc sender - MIN_RENT_EXEMPT_SOL)%float in
        let sent := settled_amount max_transferable amount_sol true in
        keypair_from_private_key rpc from_private_key = Ok sender
        /\ submitted (snd call) = submitted w ++ [tx]
        /\ int_of_float (sent * 1000000000)%float = Ok (tx_lamports tx)
        /\ (sent <=? amount_sol)%float = true
        /\ ((max_transferable <? amount_sol)%float = true ->
            sent = max_transferable)
        /\ ((max_transferable <? amount_sol)%float = false ->
            sent = amount_sol))
  /\ (forall sender,
        keypair_from_private_key rpc from_private_key = Ok sender ->
        (get_onchain_balance rpc sender
         <? amount_sol + MIN_RENT_EXEMPT_SOL)%float = true ->
        let call := transfer_sol from_private_key to_address amount_sol false w
        in fst call = Ok None /\ submitted (snd call) = submitted w)
  /\ (forall lottery draw prize winner_id results,
        requests (snd (pay_winner lottery draw prize winner_id results w))
        = requests w
          ++ match find (fun u => user_id u =? winner_id) (users w) with
             | Some u => [ {| req_to := wallet_address u;
                              req_amount := prize; req_cap := true |} ]
             | None => []
             end).
Proof.
  cbv zeta. split; [|split; [|split]].
  - intros sender receiver lamports blockhash Hk Hmax Hr Hl Hi Hb.
    rewrite (transfer_sol_sends from_private_key to_address amount_sol true w
               sender receiver lamports blockhash Hk Hmax
               ltac:(discriminate) Hr Hl Hi Hb).
    cbn [fst snd submitted set_submitted].
    split; [reflexivity|]. split; [reflexivity|].
    unfold settled_amount in *.
    destruct (get_onchain_balance (rpc_of w) sender - MIN_RENT_EXEMPT_SOL
              <? amount_sol)%float eqn:Hcap.
    + split; [apply ltb_leb; exact Hcap|]. split; congruence.
    + split; [|split; congruence].
      apply leb_refl. eapply int_of_float_mul_not_nan. exact Hl.
  - destruct (transfer_sol_cases from_private_key to_address amount_sol true w)
      as [E|(sender & receiver & lamports & blockhash & H)].
    + left. rewrite E. reflexivity.
    + right. cbv zeta in H.
      destruct H as (Hk & Hmax & _ & Hr & Hl & Hb & E).
      rewrite E. cbn [fst snd].
      eexists sender, _. split; [exact Hk|]. split; [reflexivity|].
      split; [exact Hl|].
      unfold settled_amount in *.
      destruct (get_onchain_balance (rpc_of w) sender - MIN_RENT_EXEMPT_SOL
                <? amount_sol)%float eqn:Hcap.
      * split; [apply ltb_leb; exact Hcap|]. split; congruence.
      * split; [|split; congruence].
        apply leb_refl. eapply int_of_float_mul_not_nan. exact Hl.
  - intros sender Hk Hbal.
    destruct (transfer_sol_cases from_private_key to_address amount_sol false w)
      as [E|(sender' & receiver & lamports & blockhash & H)].
    + rewrite E. split; reflexivity.
    + cbv zeta in H. destruct H as (Hk' & _ & Hbal' & _).
      assert (sender' = sender) by congruence. subst sender'.
      rewrite (Hbal' eq_refl) in Hbal. discriminate.
  - intros lottery draw prize winner_id results.
    apply pay_winner_requests.
Qed.

End TransferFacts.

(** ** The draw job *)

Module DrawFacts.
Import Clock Py Model Statements Run WinnerFacts TransferFacts.
Local Open Scope monad_scope.

Lemma only_rolls_kept w w' : only_rolls w w' -> ledger_kept w w'.
Proof. intros [n ->]. unfold ledger_kept. cbn. auto. Qed.

Lemma transfer_sol_kept key to amount cap w :
  exists r w',
    transfer_sol key to amount cap w = (Ok r, w') /\ ledger_kept w w'.
Proof.
  destruct (transfer_sol_cases key to amount cap w)
    as [E|(sender & receiver & lamports & blockhash & H)].
  - eexists _, _. split; [exact E|]. unfold ledger_kept. cbn. auto.
  - cbv zeta in H. destruct H as (_ & _ & _ & _ & _ & _ & E).
    eexists _, _. split; [exact E|]. unfold ledger_kept. cbn. auto.
Qed.

Lemma forget_add_won prize t : forget_won (add_won prize t) = forget_won t.
Proof. reflexivity. Qed.

Lemma credit_winner_kept prize winner_id lottery draw w :
  exists w',
    credit_winner prize winner_id lottery draw w = (Ok tt, w')
    /\ ledger_kept w w'.
Proof.
  eexists. split; [reflexivity|]. unfold ledger_kept. cbn.
  repeat split. rewrite map_map. apply map_ext. intros t.
  destruct (_ && _); [apply forget_add_won | reflexivity].
Qed.

Lemma schedule_draw_spec lottery w :
  exists w',
    schedule_draw lottery w = (Ok tt, w')
    /\ ledger_kept w w'
    /\ job_queue w'
       = job_queue w
         ++ [ job_for lottery (clock (outside w) (ticks w))
                (clock (outside w) (S (ticks w))) ].
Proof.
  unfold schedule_draw.
  cbv beta iota zeta delta [bind datetime_now modify].
  eexists. split; [reflexivity|]. split.
  - unfold ledger_kept. cbn. auto.
  - reflexivity.
Qed.

Lemma pay_winner_spec lottery draw prize winner_id acc w :
  exists tx w',
    pay_winner lottery draw prize winner_id acc w
    = (Ok (acc ++ [ {| payout_winner := winner_id; payout_prize := prize;
                       payout_tx := tx |} ]), w')
    /\ ledger_kept w w'.
Proof.
  unfold pay_winner. unfold bind at 1. unfold get_user at 1, gets at 1.
  destruct (find _ (users w)) as [u|].
  2:{ eexists _, w. split; [reflexivity|apply ledger_kept_refl]. }
  unfold bind at 1, gets at 1.
  destruct (transfer_sol_kept (OPERATOR_PRIVATE_KEY_BASE58 (config w))
              (wallet_address u) prize true w) as (r & w1 & E & K1).
  rewrite (bind_ok _ _ _ _ _ E).
  destruct (truthy r).
  - destruct (credit_winner_kept prize winner_id lottery draw w1)
      as (w2 & E2 & K2).
    rewrite (bind_ok _ _ _ _ _ E2).
    eexists _, w2. split; [reflexivity|].
    eapply ledger_kept_trans; eassumption.
  - eexists _, w1. split; [reflexivity|exact K1].
Qed.

Lemma pay_winners_spec lottery draw prizes ws :
  forall i acc w,
  exists res w',
    pay_winners lottery draw prizes i ws acc w = (Ok res, w')
    /\ ledger_kept w w'
    /\ map payout_winner res = map payout_winner acc ++ ws
    /\ map payout_prize res
       = map payout_prize acc
         ++ map (fun k => nth k prizes 0.0%float) (seq i (List.length ws)).
Proof.
  induction ws as [|winner_id rest IH]; intros i acc w.
  - exists acc, w. cbn. rewrite !app_nil_r.
    split; [reflexivity|]. split; [apply ledger_kept_refl|]. auto.
  - cbn [pay_winners].
    destruct (pay_winner_spec lottery draw (nth i prizes 0.0%float)
                winner_id acc w) as (tx & w1 & E & K1).
    rewrite (bind_ok _ _ _ _ _ E).
    destruct (IH (S i) (acc ++ [ {| payout_winner := winner_id;
                                    payout_prize := nth i prizes 0.0%float;
                                    payout_tx := tx |} ]) w1)
      as (res & w2 & E2 & K2 & Hw & Hp).
    exists res, w2. split; [exact E2|].
    split; [eapply ledger_kept_trans; eassumption|].
    rewrite Hw, Hp, !map_app. cbn. rewrite <- !app_assoc. auto.
Qed.

Lemma pot_read_kept lottery w w' :
  ledger_kept w w' -> pot_read lottery w' = pot_read lottery w.
Proof. intros (H & _). unfold pot_read. rewrite H. reflexivity. Qed.

Lemma draw_with_tickets_spec lottery dt rows w :
  exists r w',
    draw_with_tickets lottery dt rows w = (Ok r, w')
    /\ ledger_kept w w'
    /\ fst (select_winners (expand_entries rows) w) = Ok (winners r)
    /\ total_pot r = pot_read lottery w
    /\ operator_cut r = (total_pot r * OPERATOR_CUT_PERCENT)%float
    /\ remaining_pot r
       = match OPERATOR_PAYOUT_WALLET_ADDRESS (config w) with
         | Some _ => (total_pot r - operator_cut r)%float
         | None => total_pot r
         end
    /\ (OPERATOR_PAYOUT_WALLET_ADDRESS (config w) = None ->
        operator_cut_tx_hash r = None)
    /\ prizes r = tier_prizes (remaining_pot r)
    /\ map payout_winner (results r) = winners r
    /\ map payout_prize (results r)
       = map (fun k => nth k (prizes r) 0.0%float)
             (seq 0 (List.length (winners r))).
Proof.
  unfold draw_with_tickets.
  destruct (select_winners_spec (expand_entries rows) w)
    as (ws & w1 & E1 & R1 & _).
  apply only_rolls_kept in R1.
  rewrite (bind_ok _ _ _ _ _ E1).
  unfold bind at 1, get_lottery_info at 1, gets at 1.
  assert (Hpot :
    match
      match find (fun r => String.eqb (pot_type r) lottery) (lottery_pot w1)
      with
      | Some r => Some (pot r, ticket_price r, draw_time r)
      | None => None
      end
    with
    | Some info => fst (fst info)
    | None => 0.0%float
    end = pot_read lottery w).
  { rewrite <- (pot_read_kept lottery w w1 R1). unfold pot_read.
    destruct (find _ (lottery_pot w1)); reflexivity. }
  rewrite Hpot. clear Hpot.
  unfold bind at 1, gets at 1.
  assert (Hcfg : config w1 = config w) by apply R1.
  rewrite Hcfg.
  set (total := pot_read lottery w).
  destruct (OPERATOR_PAYOUT_WALLET_ADDRESS (config w)) as [address|].
  - rewrite bind_assoc, bind_gets, bind_assoc.
    destruct (transfer_sol_kept (OPERATOR_PRIVATE_KEY_BASE58 (config w1))
                address (total * OPERATOR_CUT_PERCENT)%float false w1)
      as (r & w2 & E2 & K2).
    rewrite (bind_ok _ _ _ _ _ E2), bind_ret.
    cbn [fst snd].
    destruct (pay_winners_spec lottery dt
                (tier_prizes (total - total * OPERATOR_CUT_PERCENT)%float)
                ws 0%nat [] w2) as (res & w3 & E3 & K3 & Hw & Hp).
    rewrite (bind_ok _ _ _ _ _ E3).
    eexists _, w3. split; [reflexivity|]. cbn.
    split; [eauto using ledger_kept_trans|].
    rewrite E1. cbn. repeat split; auto. discriminate.
  - rewrite bind_ret.
    cbn [fst snd].
    destruct (pay_winners_spec lottery dt (tier_prizes total)
                ws 0%nat [] w1) as (res & w3 & E3 & K3 & Hw & Hp).
    rewrite (bind_ok _ _ _ _ _ E3).
    eexists _, w3. split; [reflexivity|]. cbn.
    split; [eauto using ledger_kept_trans|].
    rewrite E1. cbn. repeat split; auto.
Qed.

Lemma draw_job_callback_spec lottery dt w :
  let rows := select_undrawn lottery dt (lottery_tickets w) in
  exists report w',
    draw_job_callback lottery dt w = (Ok report, w')
    /\ ledger_kept w w'
    /\ match report with
       | None => rows = []
       | Some r =>
           rows <> []
           /\ fst (draw_with_tickets lottery dt rows w) = Ok r
       end.
Proof.
  cbv zeta. unfold draw_job_callback.
  unfold bind at 1, undrawn_rows at 1, gets at 1.
  destruct (select_undrawn lottery dt (lottery_tickets w)) as [|row rows] eqn:R.
  - cbn [nonempty negb].
    rewrite bind_ret.
    destruct (schedule_draw_spec lottery w) as (w1 & E1 & K1 & _).
    rewrite (bind_ok _ _ _ _ _ E1).
    exists None, w1. split; [reflexivity|]. split; [exact K1|reflexivity].
  - cbn [nonempty negb].
    destruct (draw_with_tickets_spec lottery dt (row :: rows) w)
      as (r & w1 & E1 & K1 & _).
    rewrite bind_assoc, (bind_ok _ _ _ _ _ E1), bind_ret.
    destruct (schedule_draw_spec lottery w1) as (w2 & E2 & K2 & _).
    rewrite (bind_ok _ _ _ _ _ E2).
    exists (Some r), w2. split; [reflexivity|].
    split; [eauto using ledger_kept_trans|].
    split; [discriminate|]. rewrite E1. reflexivity.
Qed.

Lemma select_undrawn_forget lottery dt ts :
  select_undrawn lottery dt (map forget_won ts) = select_undrawn lottery dt ts.
Proof.
  unfold select_undrawn. induction ts as [|t ts IH]; [reflexivity|].
  cbn [map filter].
  change (undrawn lottery dt (forget_won t)) with (undrawn lottery dt t).
  destruct (undrawn lottery dt t); cbn [map]; rewrite IH; reflexivity.
Qed.

Lemma drawn_forget ts : map drawn (map forget_won ts) = map drawn ts.
Proof. rewrite map_map. reflexivity. Qed.

(** The two settlement helpers do their part when called: after
    [mark_tickets_drawn] no row of the window is selected any more, a
    second call changes nothing, and after [reset_lottery_pot] the pot read
    for the lottery is zero. *)
Lemma mark_tickets_drawn_empties_window lottery dt w :
  select_undrawn lottery dt
    (lottery_tickets (snd (mark_tickets_drawn lottery dt w))) = [].
Proof.
  cbn. unfold select_undrawn.
  induction (lottery_tickets w) as [|t ts IH]; [reflexivity|].
  cbn [map filter]. fold (undrawn lottery dt t).
  destruct (undrawn lottery dt t) eqn:U.
  - unfold undrawn at 1. cbn [set_drawn lottery_type draw_date drawn].
    rewrite andb_false_r. exact IH.
  - rewrite U. exact IH.
Qed.

Lemma mark_tickets_drawn_twice lottery dt w :
  let once := snd (mark_tickets_drawn lottery dt w) in
  lottery_tickets (snd (mark_tickets_drawn lottery dt once))
  = lottery_tickets once.
Proof.
  cbn. rewrite map_map. apply map_ext. intros t.
  fold (undrawn lottery dt t).
  destruct (undrawn lottery dt t) eqn:U.
  - cbn [set_drawn lottery_type draw_date drawn].
    rewrite andb_false_r. reflexivity.
  - fold (undrawn lottery dt t). rewrite U. reflexivity.
Qed.

Lemma reset_lottery_pot_zeroes lottery w :
  pot_read lottery (snd (reset_lottery_pot lottery w)) = 0.0%float.
Proof.
  unfold pot_read. cbn.
  induction (lottery_pot w) as [|r ps IH]; [reflexivity|].
  cbn [map find].
  destruct (String.eqb (pot_type r) lottery) eqn:E.
  - cbn [zero_pot pot_type]. rewrite E. reflexivity.
  - rewrite E. exact IH.
Qed.

(** A draw settles nothing: when [draw_job_callback] returns, the pot table
    is what it was, every ticket has the [drawn] flag it had, and the same
    rows are still selected for the window just drawn. *)
Lemma draw_job_callback_settles_nothing lottery dt w :
  exists report w',
    draw_job_callback lottery dt w = (Ok report, w')
    /\ lottery_pot w' = lottery_pot w
    /\ map drawn (lottery_tickets w') = map drawn (lottery_tickets w)
    /\ select_undrawn lottery dt (lottery_tickets w')
       = select_undrawn lottery dt (lottery_tickets w).
Proof.
  destruct (draw_job_callback_spec lottery dt w)
    as (report & w' & E & (Hp & _ & _ & _ & Ht) & _).
  exists report, w'. split; [exact E|]. split; [exact Hp|]. split.
  - rewrite <- (drawn_forget (lottery_tickets w')), Ht. apply drawn_forget.
  - rewrite <- (select_undrawn_forget lottery dt (lottery_tickets w')), Ht.
    apply select_undrawn_forget.
Qed.

(** C8, as the code has it.  In a draw that found tickets the operator cut
    is the total pot times 0.10; with an operator payout address configured
    the remaining pot is the total pot less the cut; the prizes are 70%,
    20% and 10% of the remaining pot, and the k-th winner drawn is offered
    the k-th of them.  For a remaining pot of 1.0 the prizes are exactly
    0.70, 0.20 and 0.10; their sum is one unit in the last place below 1.0
    and so does not exceed the pot. *)
Theorem cut_and_tier_prizes (lottery : string) (dt : datetime) (w : World) :
  match fst (draw_job_callback lottery dt w) with
  | Ok (Some r) =>
      total_pot r = pot_read lottery w
      /\ operator_cut r = (total_pot r * 0.10)%float
      /\ remaining_pot r
         = match OPERATOR_PAYOUT_WALLET_ADDRESS (config w) with
           | Some _ => (total_pot r - operator_cut r)%float
           | None => total_pot r
           end
      /\ prizes r = [ (remaining_pot r * 0.70)%float;
                      (remaining_pot r * 0.20)%float;
                      (remaining_pot r * 0.10)%float ]
      /\ map payout_winner (results r) = winners r
      /\ map payout_prize (results r)
         = firstn (List.length (winners r)) (prizes r)
  | Ok None => select_undrawn lottery dt (lottery_tickets w) = []
  | Raise _ => False
  end
  /\ tier_prizes 1.0 = [0.70; 0.20; 0.10]%float
  /\ sum_floats (tier_prizes 1.0) = 0.99999999999999989%float
  /\ (sum_floats (tier_prizes 1.0) <=? 1.0)%float = true
  /\ (1.0 - sum_floats (tier_prizes 1.0) <=? 0.000000000000001)%float = true.
Proof.
  split; [|repeat split; vm_compute; reflexivity].
  destruct (draw_job_callback_spec lottery dt w) as (report & w' & E & _ & H).
  rewrite E. cbn [fst]. destruct report as [r|]; [|exact H].
  destruct H as [_ H].
  destruct (draw_with_tickets_spec lottery dt
              (select_undrawn lottery dt (lottery_tickets w)) w)
    as (r' & w1 & E1 & _ & Hsel & Htot & Hcut & Hrem & _ & Hpr & Hw & Hp).
  rewrite E1 in H. cbn in H. injection H as <-.
  split; [exact Htot|]. split; [exact Hcut|]. split; [exact Hrem|].
  split; [exact Hpr|]. split; [exact Hw|].
  rewrite Hp.
  destruct (select_winners_spec
              (expand_entries (select_undrawn lottery dt (lottery_tickets w)))
              w) as (ws & w2 & Ews & _ & _ & _ & Hlen).
  rewrite Ews in Hsel. cbn [fst] in Hsel. injection Hsel as ->.
  rewrite Hpr. unfold tier_prizes.
  destruct (winners r') as [|a [|b [|c [|d l]]]]; try reflexivity.
  exfalso. simpl List.length in Hlen. lia.
Qed.

End DrawFacts.

(** ** Scheduling at start *)

Module ScheduleFacts.
Import Clock Py Model Statements Run ClockFacts.
Local Open Scope monad_scope.

Lemma job_for_is_ahead (c : Cadence) (now0 now : datetime) :
  now0 < job_draw_datetime (job_for (cadence_name c) now0 now)
  /\ 0 <= job_delay (job_for (cadence_name c) now0 now).
Proof.
  split.
  - unfold job_for. cbn [job_draw_datetime].
    destruct c; [apply hourly_after | apply daily_after | apply weekly_after].
  - unfold job_for. cbn [job_delay].
    destruct (Z.ltb_spec
                (get_next_draw_datetime now0 (cadence_name c) - now) 0); lia.
Qed.

Lemma clamp_is_max (d : Z) : (if d <? 0 then 0 else d) = Z.max 0 d.
Proof. destruct (Z.ltb_spec d 0); lia. Qed.

(** The instant computed for a cadence is the first draw instant of that
    cadence strictly after the reading. *)
Lemma next_draw_is_first (c : Cadence) (now : datetime) :
  now < get_next_draw_datetime now (cadence_name c)
  /\ draw_rule (cadence_name c) (get_next_draw_datetime now (cadence_name c))
  /\ (forall t,
        now < t -> t < get_next_draw_datetime now (cadence_name c) ->
        ~ draw_rule (cadence_name c) t).
Proof.
  destruct c; (split; [|split]);
    [ apply hourly_after | apply hourly_rule | intros t; apply hourly_first
    | apply daily_after | apply daily_rule | intros t; apply daily_first
    | apply weekly_after | apply weekly_rule | intros t; apply weekly_first ].
Qed.

(** C5, as the code has it.  A starting process queues exactly three jobs,
    one per cadence, in the order hourly, daily, weekly.  The job of a
    cadence is for the first draw instant of that cadence strictly after
    the clock reading taken when the job is made: the instant is after the
    reading, it satisfies the rule of the cadence, and no instant between
    the reading and it does.  Its delay is the time from the second reading
    to that instant, or zero if the instant has passed by then.  So no job
    is queued for a window whose instant is not after the reading, and the
    tickets on disk are left as they are. *)
Theorem start_queues_coming_windows_only (w : World) :
  let w' := snd (main w) in
  let reading k := clock (outside w) (k + ticks w)%nat in
  let queued (c : Cadence) (k : nat) :=
    {| job_name := cadence_name c;
       job_delay :=
         Z.max 0 (get_next_draw_datetime (reading k) (cadence_name c)
                  - reading (S k));
       job_lottery_type := cadence_name c;
       job_draw_datetime :=
         get_next_draw_datetime (reading k) (cadence_name c) |} in
  fst (main w) = Ok tt
  /\ job_queue w'
     = [ queued Hourly 0%nat; queued Daily 2%nat; queued Weekly 4%nat ]
  /\ (forall (c : Cadence) (k : nat),
        reading k < job_draw_datetime (queued c k)
        /\ draw_rule (job_lottery_type (queued c k))
             (job_draw_datetime (queued c k))
        /\ (forall t,
              reading k < t -> t < job_draw_datetime (queued c k) ->
              ~ draw_rule (job_lottery_type (queued c k)) t)
        /\ 0 <= job_delay (queued c k)
        /\ (job_draw_datetime (queued c k) <= reading (S k) ->
            job_delay (queued c k) = 0)
        /\ (reading (S k) <= job_draw_datetime (queued c k) ->
            job_delay (queued c k)
            = job_draw_datetime (queued c k) - reading (S k)))
  /\ lottery_tickets w' = lottery_tickets w.
Proof.
  cbv zeta. split; [reflexivity|].
  assert (Q : job_queue (snd (main w))
              = [ job_for "hourly" (clock (outside w) (0 + ticks w)%nat)
                    (clock (outside w) (1 + ticks w)%nat);
                  job_for "daily" (clock (outside w) (2 + ticks w)%nat)
                    (clock (outside w) (3 + ticks w)%nat);
                  job_for "weekly" (clock (outside w) (4 + ticks w)%nat)
                    (clock (outside w) (5 + ticks w)%nat) ])
    by reflexivity.
  split.
  - rewrite Q. cbv beta zeta delta [job_for]. rewrite !clamp_is_max.
    reflexivity.
  - split; [|reflexivity].
    intros c k. cbn [job_draw_datetime job_lottery_type job_delay].
    destruct (next_draw_is_first c (clock (outside w) (k + ticks w)%nat))
      as (A & R & F).
    split; [exact A|]. split; [exact R|]. split; [exact F|].
    split; [lia|]. split; intros H; lia.
Qed.

End ScheduleFacts.

(** ** Confirming a purchase *)

Module PurchaseFacts.
Import Clock Py Model Statements Run TransferFacts.
Local Open Scope monad_scope.

(** C7, as the code has it.  A confirmation without a user row or without
    a pending purchase changes nothing.  Otherwise the price is
    transferred, with no check on its sign; if the transfer returns a
    result that counts as true, one ticket of quantity 1 at that price is
    appended for the next draw and the price is added to the pot of the
    lottery; if not, the tickets and the pots are what they were. *)
Theorem purchase_follows_the_transfer
    (lottery : string) (tid : Z) (pending : option float) (w : World) :
  let call := confirm_buy_ticket lottery tid pending w in
  match find (fun u => user_id u =? tid) (users w), pending with
  | Some u, Some ticket_price =>
      exists tx_hash,
        fst (transfer_sol (private_key u)
               (py_str (OPERATOR_WALLET_ADDRESS (config w)))
               ticket_price false w) = Ok tx_hash
        /\ if truthy tx_hash then
             fst call = Ok (TicketPurchased (py_str tx_hash))
             /\ lottery_tickets (snd call)
                = lottery_tickets w
                  ++ [ {| id := next_id (lottery_tickets w);
                          telegram_id := tid;
                          lottery_type := lottery;
                          draw_date :=
                            get_next_draw_datetime
                              (clock (outside w) (ticks w)) lottery;
                          ticket_count := 1;
                          amount_spent := ticket_price;
                          won := 0.0%float;
                          drawn := 0;
                          purchased_at := clock (outside w) (S (ticks w)) |} ]
             /\ lottery_pot (snd call)
                = map (fun r => if String.eqb (pot_type r) lottery
                                then add_to_pot ticket_price r else r)
                      (lottery_pot w)
           else
             fst call = Ok TransferFailed
             /\ lottery_tickets (snd call) = lottery_tickets w
             /\ lottery_pot (snd call) = lottery_pot w
  | _, _ => call = (Ok NoPendingPurchase, w)
  end.
Proof.
  cbv zeta. unfold confirm_buy_ticket, get_user.
  rewrite bind_gets.
  destruct (find (fun u => user_id u =? tid) (users w)) as [u|];
    [|reflexivity].
  destruct pending as [ticket_price|]; [|reflexivity].
  rewrite bind_gets.
  destruct (transfer_sol_frame (private_key u)
              (py_str (OPERATOR_WALLET_ADDRESS (config w)))
              ticket_price false w)
    as (tx_hash & w1 & E & Ht & Hp & _ & _ & Hticks & _ & Hout & _).
  rewrite (bind_ok _ _ _ _ _ E), E. cbn [fst].
  exists tx_hash. split; [reflexivity|].
  destruct (truthy tx_hash).
  - cbv beta iota zeta
        delta [bind datetime_now add_ticket update_lottery_pot modify ret].
    cbn. rewrite Ht, Hp, Hticks, Hout. auto.
  - cbn. auto.
Qed.

End PurchaseFacts.

(** ** The code on concrete worlds *)

Module ScenarioFacts.
Import Clock Py Model Statements Run Scenario.
Local Open Scope monad_scope.

(** C1, on a concrete ledger.  One hourly ticket is sold for the 20:00
    window and the pot holds its price.  The draw job runs twice for that
    window.  Both runs find the ticket and select its owner; the first run
    requests two transfers (cut and prize) and the second run two more; the
    ticket still has [drawn = 0] after the first run, and its [won] column
    is credited by each run. *)
Theorem second_draw_selects_and_pays_again :
  let w0 := one_ticket_sold "hourly" with_payout accepting_node window_2000 in
  let draw := draw_job_callback "hourly" window_2000 in
  let w1 := after draw w0 in
  let w2 := after draw w1 in
  let prize := ((0.001 - 0.001 * 0.10) * 0.70)%float in
  (exists r1 r2,
      value draw w0 = Some (Some r1) /\ value draw w1 = Some (Some r2)
      /\ winners r1 = [1] /\ winners r2 = [1])
  /\ List.length (requests w1) = 2%nat /\ List.length (requests w2) = 4%nat
  /\ List.length (submitted w1) = 2%nat /\ List.length (submitted w2) = 4%nat
  /\ map drawn (lottery_tickets w1) = [0]
  /\ map drawn (lottery_tickets w2) = [0]
  /\ map won (lottery_tickets w1) = [prize]
  /\ map won (lottery_tickets w2) = [(prize + prize)%float].
Proof.
  cbv zeta. split.
  - eexists _, _. split; [vm_compute; reflexivity|].
    split; [vm_compute; reflexivity|]. split; reflexivity.
  - vm_compute. repeat split.
Qed.

(** C2, on a concrete ledger.  From empty pots, three confirmed purchases of
    0.001 SOL into the hourly window of 20:00 bring the hourly pot to
    3 x 0.001.  The draw of that window then completes, with a winner, and
    leaves the hourly pot at that amount: it is not reset to zero. *)
Theorem pot_survives_the_draw :
  let w0 := opening with_payout accepting_node in
  let buy := confirm_buy_ticket_hourly_callback 1 (Some 0.001%float) in
  let w3 := after buy (after buy (after buy w0)) in
  let draw := draw_job_callback "hourly" window_2000 in
  let w4 := after draw w3 in
  pot_read "hourly" w0 = 0.0%float
  /\ map draw_date (lottery_tickets w3)
     = [window_2000; window_2000; window_2000]
  /\ pot_read "hourly" w3 = (3 * 0.001)%float
  /\ (exists r, value draw w3 = Some (Some r) /\ winners r = [1])
  /\ pot_read "hourly" w4 = (3 * 0.001)%float
  /\ (pot_read "hourly" w4 =? 0.0)%float = false.
Proof.
  cbv zeta. split; [reflexivity|]. split; [vm_compute; reflexivity|].
  split; [vm_compute; reflexivity|]. split.
  - eexists. split; [vm_compute; reflexivity|]. reflexivity.
  - split; vm_compute; reflexivity.
Qed.

(** Ten purchases at the ticket price: the pot is the float sum of ten
    additions, which is one unit in the last place above 10 x 0.001. *)
Example pot_after_ten_purchases :
  let w0 := opening with_payout accepting_node in
  let buy := confirm_buy_ticket_hourly_callback 1 (Some 0.001%float) in
  let w10 := after_times 10 buy w0 in
  List.length (lottery_tickets w10) = 10%nat
  /\ pot_read "hourly" w10 = 0.010000000000000002%float
  /\ (10 * 0.001)%float = 0.01%float
  /\ (pot_read "hourly" w10 - 10 * 0.001 <=? 0.000000000000001)%float = true.
Proof. cbv zeta. vm_compute. repeat split. Qed.

(** A request of 0.01 SOL against a balance of 0.005 SOL: with the cap
    flag 0.003 SOL (3000000 lamports) is sent; without it nothing is. *)
Example transfer_on_short_balance :
  let w0 := opening with_payout short_node in
  let capped := transfer_sol "operator-key" "alice-wallet" 0.01%float true in
  let plain := transfer_sol "operator-key" "alice-wallet" 0.01%float false in
  value capped w0 = Some (Some "signature")
  /\ map tx_lamports (submitted (after capped w0)) = [3000000]
  /\ value plain w0 = Some None
  /\ submitted (after plain w0) = [].
Proof. cbv zeta. vm_compute. repeat split. Qed.

(** Against C4 as stated.  The payout address is configured and the node
    refuses the transaction of the operator cut, so that transfer fails;
    the node accepts the next transaction.  The remaining pot is still the
    total pot less the cut, not the total pot, and the prize is computed
    from it: the winner is recorded, requested, sent and credited 70% of
    the total pot less the cut, which is less than 70% of the total pot. *)
Lemma failed_cut_transfer_still_deducts :
  let w0 := one_ticket_sold_first_refused "hourly" with_payout window_2000 in
  let draw := draw_job_callback "hourly" window_2000 in
  let w1 := after draw w0 in
  let prize := ((0.001 - 0.001 * 0.10) * 0.70)%float in
  (exists r,
      value draw w0 = Some (Some r)
      /\ operator_cut_tx_hash r = None
      /\ total_pot r = 0.001%float
      /\ remaining_pot r = (0.001 - 0.001 * 0.10)%float
      /\ (remaining_pot r =? total_pot r)%float = false
      /\ prizes r = tier_prizes (0.001 - 0.001 * 0.10)%float
      /\ results r = [ {| payout_winner := 1; payout_prize := prize;
                          payout_tx := "signature" |} ])
  /\ requests w1
     = [ {| req_to := "payout-wallet"; req_amount := (0.001 * 0.10)%float;
            req_cap := false |};
         {| req_to := "alice-wallet"; req_amount := prize;
            req_cap := true |} ]
  /\ map (fun tx => Ok (tx_lamports tx)) (submitted w1)
     = [ int_of_float (0.001 * 0.10 * 1000000000)%float;
         int_of_float (prize * 1000000000)%float ]
  /\ map won (lottery_tickets w1) = [prize]
  /\ (prize <? 0.001 * 0.70)%float = true.
Proof.
  cbv zeta. split.
  - eexists. split; [vm_compute; reflexivity|].
    vm_compute. repeat split.
  - vm_compute. repeat split.
Qed.

(** Against C8 as stated.  No payout address is configured; the cut is
    computed, but the remaining pot is the total pot, not the total pot
    less the cut. *)
Lemma no_payout_address_no_deduction :
  let w0 := one_ticket_sold "hourly" without_payout accepting_node window_2000
  in
  exists r,
    value (draw_job_callback "hourly" window_2000) w0 = Some (Some r)
    /\ total_pot r = 0.001%float
    /\ operator_cut r = (0.001 * 0.10)%float
    /\ remaining_pot r = 0.001%float
    /\ (remaining_pot r =? total_pot r - operator_cut r)%float = false.
Proof.
  cbv zeta. eexists. split; [vm_compute; reflexivity|].
  vm_compute. repeat split.
Qed.

(** Against C5 as stated.  A daily ticket was sold for the window of 20:00
    and the process starts at 20:30:00 the same day, the draw not having
    run.  The jobs queued at start are for 21:00, for 20:00 the next day
    and for 20:00 a week later: none is for the overdue window.  The daily
    job, when it runs, finds no ticket and requests no transfer, and the
    ticket of the overdue window is still undrawn. *)
Lemma overdue_window_is_not_queued :
  let w0 := one_ticket_sold "daily" with_payout accepting_node
              (sunday_2024_03_10 20 30 0) in
  let w1 := after main w0 in
  let next_daily := window_2000 + timedelta_days 1 in
  let w2 := after (draw_job_callback "daily" next_daily) w1 in
  at_2000 window_2000
  /\ window_2000 < clock (outside w0) (ticks w0)
  /\ select_undrawn "daily" window_2000 (lottery_tickets w0) = [(1, 1)]
  /\ map job_draw_datetime (job_queue w1)
     = [ sunday_2024_03_10 21 0 0; next_daily;
         window_2000 + timedelta_days 7 ]
  /\ forallb (fun j => window_2000 <? job_draw_datetime j) (job_queue w1)
     = true
  /\ value (draw_job_callback "daily" next_daily) w1 = Some None
  /\ requests w2 = []
  /\ select_undrawn "daily" window_2000 (lottery_tickets w2) = [(1, 1)].
Proof. cbv zeta. vm_compute. repeat split. Qed.

(** Against C7 as stated.  [add_ticket] with quantity 0 and amount -1.0
    returns normally and inserts the row; a confirmed purchase at a pending
    price of 0.0 records a ticket with nothing paid.  No validation error
    arises in either case. *)
Lemma purchase_is_not_validated :
  let w0 := opening with_payout accepting_node in
  let insert := add_ticket 1 "hourly" window_2000 0 (-1.0)%float in
  let buy := confirm_buy_ticket_hourly_callback 1 (Some 0.0%float) in
  value insert w0 = Some tt
  /\ map ticket_count (lottery_tickets (after insert w0)) = [0]
  /\ map amount_spent (lottery_tickets (after insert w0)) = [(-1.0)%float]
  /\ value buy w0 = Some (TicketPurchased "signature")
  /\ map ticket_count (lottery_tickets (after buy w0)) = [1]
  /\ map amount_spent (lottery_tickets (after buy w0)) = [0.0%float].
Proof. cbv zeta. vm_compute. repeat split. Qed.

End ScenarioFacts.

(** * Further properties *)

(** ** Draw windows as time goes on *)

Module WindowFacts.
Import Clock Py Model Statements MoreStatements ClockFacts.

Lemma next_draw_after (c : Cadence) now :
  now < get_next_draw_datetime now (cadence_name c).
Proof.
  destruct c; [apply hourly_after | apply daily_after | apply weekly_after].
Qed.

Lemma next_draw_on_rule (c : Cadence) now :
  draw_rule (cadence_name c) (get_next_draw_datetime now (cadence_name c)).
Proof.
  destruct c;
    [apply hourly_rule | apply daily_rule | apply weekly_rule].
Qed.

Lemma next_draw_first (c : Cadence) now t :
  now < t -> t < get_next_draw_datetime now (cadence_name c) ->
  ~ draw_rule (cadence_name c) t.
Proof.
  destruct c;
    [apply hourly_first | apply daily_first | apply weekly_first].
Qed.

Lemma next_draw_stable (c : Cadence) now later :
  now <= later ->
  later < get_next_draw_datetime now (cadence_name c) ->
  get_next_draw_datetime later (cadence_name c)
  = get_next_draw_datetime now (cadence_name c).
Proof.
  intros Hle Hlt.
  pose proof (next_draw_after c later) as A.
  pose proof (next_draw_on_rule c later) as R.
  pose proof (next_draw_on_rule c now) as R0.
  destruct (Z.lt_trichotomy (get_next_draw_datetime later (cadence_name c))
              (get_next_draw_datetime now (cadence_name c)))
    as [H|[H|H]]; [|exact H|].
  - exfalso.
    apply (next_draw_first c now
             (get_next_draw_datetime later (cadence_name c)));
      [lia | exact H | exact R].
  - exfalso. apply (next_draw_first c later _ Hlt H). exact R0.
Qed.

(** X1.  The window does not move before it is due: at every reading from
    [now] up to, but not including, the next draw instant computed at
    [now], the next draw instant computed is that same instant. *)
Theorem window_is_stable_until_due (c : Cadence) (now later : datetime) :
  now <= later ->
  later < get_next_draw_datetime now (cadence_name c) ->
  get_next_draw_datetime later (cadence_name c)
  = get_next_draw_datetime now (cadence_name c).
Proof. exact (next_draw_stable c now later). Qed.

Lemma window_is_stable_until_due_witness :
  get_next_draw_datetime (sunday_2024_03_10 19 59 59) "weekly"
  = get_next_draw_datetime (sunday_2024_03_10 8 0 0) "weekly".
Proof.
  apply (window_is_stable_until_due Weekly
           (sunday_2024_03_10 8 0 0) (sunday_2024_03_10 19 59 59));
    vm_compute; congruence.
Defined.

(** X2.  Windows never go back: a later reading of the clock never gives
    an earlier draw instant. *)
Theorem windows_never_go_back (c : Cadence) (now later : datetime) :
  now <= later ->
  get_next_draw_datetime now (cadence_name c)
  <= get_next_draw_datetime later (cadence_name c).
Proof.
  intros Hle.
  destruct (Z.lt_ge_cases later (get_next_draw_datetime now (cadence_name c)))
    as [H|H].
  - pose proof (next_draw_after c later) as A.
    pose proof (next_draw_on_rule c later) as R.
    destruct (Z.lt_ge_cases (get_next_draw_datetime later (cadence_name c))
                (get_next_draw_datetime now (cadence_name c))) as [H'|H'];
      [|lia].
    exfalso.
    apply (next_draw_first c now
             (get_next_draw_datetime later (cadence_name c)));
      [lia | exact H' | exact R].
  - pose proof (next_draw_after c later). lia.
Qed.

Lemma windows_never_go_back_witness :
  get_next_draw_datetime (sunday_2024_03_10 19 0 0) "daily"
  <= get_next_draw_datetime (sunday_2024_03_10 21 0 0) "daily".
Proof.
  apply (windows_never_go_back Daily
           (sunday_2024_03_10 19 0 0) (sunday_2024_03_10 21 0 0)).
  vm_compute. congruence.
Defined.

(** X3.  The wait is bounded: the next draw instant is never more than
    one period (an hour, a day, a week) after the reading. *)
Theorem wait_is_at_most_one_period (c : Cadence) (now : datetime) :
  get_next_draw_datetime now (cadence_name c) - now <= period c.
Proof.
  destruct c; cbn [cadence_name period].
  - open_next_draw. clock_arith.
  - open_next_draw. split_on_clock_test; clock_arith.
  - open_next_draw.
    assert (Ha : 0 <= (6 - weekday now) mod 7 < 7)
      by (apply Z.mod_pos_bound; lia).
    destruct (day_decomposition now) as (r & Hr & Hnow).
    set (a := (6 - weekday now) mod 7) in *.
    unfold replace, timedelta_days.
    set (D := day_index now) in *. clearbody a D.
    split_on_clock_test; cbv iota; unfold DAY, HOUR, MINUTE, SECOND in *; lia.
Qed.

End WindowFacts.

(** ** The ledger helpers *)

Module LedgerFacts.
Import Clock Py Model Statements MoreStatements Run.
Local Open Scope monad_scope.

Lemma find_app_one {A} (f : A -> bool) (l : list A) (x : A) :
  find f (l ++ [x])
  = match find f l with
    | Some y => Some y
    | None => if f x then Some x else None
    end.
Proof.
  induction l as [|y l IH]; cbn; [reflexivity|].
  destruct (f y); [reflexivity | exact IH].
Qed.

Lemma has_pot_row_find name ps :
  has_pot_row name ps = true
  <-> find (fun r => String.eqb (pot_type r) name) ps <> None.
Proof.
  unfold has_pot_row. induction ps as [|r ps IH]; cbn.
  - split; congruence.
  - destruct (String.eqb (pot_type r) name); cbn; [|exact IH].
    split; congruence.
Qed.

Lemma find_insert_or_ignore name ps r :
  find (fun x => String.eqb (pot_type x) name)
       (if has_pot_row (pot_type r) ps then ps else ps ++ [r])
  = match find (fun x => String.eqb (pot_type x) name) ps with
    | Some y => Some y
    | None => if String.eqb (pot_type r) name then Some r else None
    end.
Proof.
  destruct (has_pot_row (pot_type r) ps) eqn:H.
  - destruct (find _ ps) as [y|] eqn:F; [reflexivity|].
    destruct (String.eqb_spec (pot_type r) name) as [E|]; [|reflexivity].
    apply has_pot_row_find in H. rewrite E in H. congruence.
  - exact (find_app_one (fun x => String.eqb (pot_type x) name) ps r).
Qed.

Lemma find_insert_all name rows :
  forall ps,
    find (fun x => String.eqb (pot_type x) name)
      (fold_left
         (fun ps r => if has_pot_row (pot_type r) ps then ps else ps ++ [r])
         rows ps)
    = match find (fun x => String.eqb (pot_type x) name) ps with
      | Some y => Some y
      | None => find (fun x => String.eqb (pot_type x) name) rows
      end.
Proof.
  induction rows as [|r rows IH]; intros ps; cbn [fold_left].
  - cbn. destruct (find _ ps); reflexivity.
  - rewrite IH, find_insert_or_ignore.
    destruct (find _ ps); [reflexivity|]. cbn [find].
    destruct (String.eqb (pot_type r) name); reflexivity.
Qed.

(** X4.  [init_lottery_db] completes the pot table and overwrites nothing:
    a lottery that has a row keeps it, with its pot; a lottery without a
    row gets the initial row of that name, if there is one; and the three
    lotteries have a row afterwards, so that a second run changes nothing. *)
Theorem init_lottery_db_keeps_what_is_there (w : World) :
  let w' := snd (init_lottery_db w) in
  (forall name,
      fst (get_lottery_info name w')
      = match fst (get_lottery_info name w) with
        | Ok (Some info) => Ok (Some info)
        | _ => fst (get_lottery_info name (set_pot w initial_pot_rows))
        end)
  /\ (forall c, has_pot_row (cadence_name c) (lottery_pot w') = true)
  /\ lottery_pot (snd (init_lottery_db w')) = lottery_pot w'
  /\ lottery_tickets w' = lottery_tickets w.
Proof.
  cbv zeta.
  assert (L : forall name,
    find (fun x => String.eqb (pot_type x) name)
         (lottery_pot (snd (init_lottery_db w)))
    = match find (fun x => String.eqb (pot_type x) name) (lottery_pot w) with
      | Some y => Some y
      | None => find (fun x => String.eqb (pot_type x) name) initial_pot_rows
      end).
  { intros name. unfold init_lottery_db, modify.
    cbn [snd lottery_pot set_pot]. apply find_insert_all. }
  assert (P : forall c,
    has_pot_row (cadence_name c) (lottery_pot (snd (init_lottery_db w)))
    = true).
  { intros c. apply has_pot_row_find. rewrite L.
    destruct (find _ (lottery_pot w)); [discriminate|].
    destruct c; cbn; discriminate. }
  split; [|split; [exact P|split; [|reflexivity]]].
  - intros name. unfold get_lottery_info, gets. cbn [fst].
    rewrite L. cbn [lottery_pot set_pot].
    destruct (find _ (lottery_pot w)); reflexivity.
  - set (ps := lottery_pot (snd (init_lottery_db w))) in *.
    unfold init_lottery_db at 1, modify. cbn [snd lottery_pot set_pot].
    fold ps. unfold initial_pot_rows. cbn [fold_left pot_type].
    rewrite (P Hourly : has_pot_row "hourly" ps = true).
    rewrite (P Daily : has_pot_row "daily" ps = true).
    rewrite (P Weekly : has_pot_row "weekly" ps = true).
    reflexivity.
Qed.

Lemma find_map_same_key name (f : PotRow -> PotRow) ps :
  (forall r, pot_type (f r) = pot_type r) ->
  find (fun x => String.eqb (pot_type x) name) (map f ps)
  = option_map f (find (fun x => String.eqb (pot_type x) name) ps).
Proof.
  intros K. induction ps as [|r ps IH]; cbn; [reflexivity|].
  rewrite K. destruct (String.eqb (pot_type r) name); [reflexivity|exact IH].
Qed.

(** X5.  [update_lottery_pot] adds the amount to the pot of the named
    lottery and to nothing else: the prices and draw times stay, the other
    lotteries keep their pots, the tickets are not touched, and a lottery
    without a row still has none (the amount is dropped). *)
Theorem update_lottery_pot_adds_to_one_pot
    (lottery : string) (additional : float) (w : World) :
  let w' := snd (update_lottery_pot lottery additional w) in
  (forall name,
      fst (get_lottery_info name w')
      = match fst (get_lottery_info name w) with
        | Ok (Some (old_pot, price, time)) =>
            Ok (Some (if String.eqb name lottery
                      then (old_pot + additional)%float else old_pot,
                      price, time))
        | other => other
        end)
  /\ lottery_tickets w' = lottery_tickets w
  /\ List.length (lottery_pot w') = List.length (lottery_pot w).
Proof.
  cbv zeta. split; [|split; [reflexivity|]].
  - intros name. unfold get_lottery_info, gets. cbn [fst].
    unfold update_lottery_pot, modify. cbn [snd lottery_pot set_pot].
    rewrite find_map_same_key
      by (intros r; destruct (String.eqb (pot_type r) lottery); reflexivity).
    destruct (find _ (lottery_pot w)) as [r|] eqn:F; [|reflexivity].
    cbn [option_map]. apply find_some in F. destruct F as [_ F].
    apply String.eqb_eq in F. rewrite F.
    destruct (String.eqb name lottery); reflexivity.
  - cbn. apply length_map.
Qed.

(** X6.  [reset_lottery_pot] sets the pot of the named lottery to 0.0 and
    changes nothing else: prices, draw times, the other pots and the
    tickets stay as they are. *)
Theorem reset_lottery_pot_zeroes_one_pot (lottery : string) (w : World) :
  let w' := snd (reset_lottery_pot lottery w) in
  (forall name,
      fst (get_lottery_info name w')
      = match fst (get_lottery_info name w) with
        | Ok (Some (old_pot, price, time)) =>
            Ok (Some (if String.eqb name lottery then 0.0%float else old_pot,
                      price, time))
        | other => other
        end)
  /\ lottery_tickets w' = lottery_tickets w.
Proof.
  cbv zeta. split; [|reflexivity].
  intros name. unfold get_lottery_info, gets. cbn [fst].
  unfold reset_lottery_pot, modify. cbn [snd lottery_pot set_pot].
  rewrite find_map_same_key
    by (intros r; destruct (String.eqb (pot_type r) lottery); reflexivity).
  destruct (find _ (lottery_pot w)) as [r|] eqn:F; [|reflexivity].
  cbn [option_map]. apply find_some in F. destruct F as [_ F].
  apply String.eqb_eq in F. rewrite F.
  destruct (String.eqb name lottery); reflexivity.
Qed.

Lemma undrawn_set_drawn lottery dt t : undrawn lottery dt (set_drawn t) = false.
Proof. unfold undrawn. cbn. apply andb_false_r. Qed.

Lemma undrawn_other lottery dt lottery' dt' t :
  undrawn lottery dt t = true ->
  (String.eqb lottery' lottery && (dt' =? dt)) = false ->
  undrawn lottery' dt' t = false.
Proof.
  unfold undrawn. intros H N.
  apply andb_prop in H. destruct H as [H _].
  apply andb_prop in H. destruct H as [H1 H2].
  apply String.eqb_eq in H1. apply Z.eqb_eq in H2. subst.
  rewrite (String.eqb_sym (lottery_type t) lottery').
  rewrite (Z.eqb_sym (draw_date t) dt'). rewrite N. reflexivity.
Qed.

Lemma mark_tickets_drawn_tickets lottery dt w :
  lottery_tickets (snd (mark_tickets_drawn lottery dt w))
  = map (fun t => if undrawn lottery dt t then set_drawn t else t)
        (lottery_tickets w).
Proof. reflexivity. Qed.

(** X7.  [mark_tickets_drawn] settles one window and only that one:
    afterwards no ticket of the window is selected as undrawn; the rows
    selected for every other lottery or window are the same as before; no
    column but [drawn] changes and no ticket is added or removed; a second
    call changes nothing. *)
Theorem mark_tickets_drawn_settles_one_window
    (lottery : string) (dt : datetime) (w : World) :
  let w' := snd (mark_tickets_drawn lottery dt w) in
  select_undrawn lottery dt (lottery_tickets w') = []
  /\ (forall lottery' dt',
        (String.eqb lottery' lottery && (dt' =? dt)) = false ->
        select_undrawn lottery' dt' (lottery_tickets w')
        = select_undrawn lottery' dt' (lottery_tickets w))
  /\ map set_drawn (lottery_tickets w') = map set_drawn (lottery_tickets w)
  /\ lottery_tickets (snd (mark_tickets_drawn lottery dt w'))
     = lottery_tickets w'
  /\ lottery_pot w' = lottery_pot w.
Proof.
  cbv zeta. rewrite !mark_tickets_drawn_tickets.
  split; [|split; [|split; [|split; [|reflexivity]]]].
  - unfold select_undrawn.
    induction (lottery_tickets w) as [|t ts IH]; [reflexivity|].
    cbn [map]. destruct (undrawn lottery dt t) eqn:U; cbn [filter].
    + rewrite undrawn_set_drawn. exact IH.
    + rewrite U. exact IH.
  - intros lottery' dt' N. unfold select_undrawn.
    induction (lottery_tickets w) as [|t ts IH]; [reflexivity|].
    cbn [map]. destruct (undrawn lottery dt t) eqn:U; cbn [filter].
    + rewrite undrawn_set_drawn.
      rewrite (undrawn_other _ _ _ _ _ U N). exact IH.
    + destruct (undrawn lottery' dt' t); cbn [map]; rewrite IH; reflexivity.
  - rewrite map_map. apply map_ext. intros t.
    destruct (undrawn lottery dt t); reflexivity.
  - rewrite map_map. apply map_ext. intros t.
    destruct (undrawn lottery dt t) eqn:U.
    + rewrite undrawn_set_drawn. reflexivity.
    + rewrite U. reflexivity.
Qed.

Lemma next_id_is_fresh ts :
  Forall (fun t => id t < next_id ts) ts.
Proof.
  unfold next_id. induction ts as [|t ts IH]; constructor; cbn [fold_right].
  - lia.
  - eapply Forall_impl; [|exact IH]. cbv beta. intros t0 H. lia.
Qed.

Lemma select_undrawn_app lottery dt ts ts' :
  select_undrawn lottery dt (ts ++ ts')
  = select_undrawn lottery dt ts ++ select_undrawn lottery dt ts'.
Proof. unfold select_undrawn. rewrite filter_app, map_app. reflexivity. Qed.

(** X8.  [add_ticket] appends one row and touches nothing else: the new
    row carries the given owner, lottery, window, quantity and amount, has
    won nothing and is not drawn; its id is above every id in the table,
    so ids stay distinct; the draw of its window selects it, after the rows
    it selected before; the pots are as they were. *)
Theorem add_ticket_appends_a_fresh_row
    (tid : Z) (lottery : string) (draw : datetime) (count : Z) (spent : float)
    (w : World) :
  let w' := snd (add_ticket tid lottery draw count spent w) in
  fst (add_ticket tid lottery draw count spent w) = Ok tt
  /\ (exists t,
         lottery_tickets w' = lottery_tickets w ++ [t]
         /\ telegram_id t = tid /\ lottery_type t = lottery
         /\ draw_date t = draw /\ ticket_count t = count
         /\ amount_spent t = spent /\ won t = 0.0%float /\ drawn t = 0
         /\ Forall (fun old => id old < id t) (lottery_tickets w))
  /\ select_undrawn lottery draw (lottery_tickets w')
     = select_undrawn lottery draw (lottery_tickets w) ++ [(tid, count)]
  /\ (NoDup (map id (lottery_tickets w)) ->
      NoDup (map id (lottery_tickets w')))
  /\ lottery_pot w' = lottery_pot w.
Proof.
  cbv zeta. unfold add_ticket.
  cbv beta iota zeta delta [bind datetime_now modify].
  cbn [fst snd lottery_tickets set_tickets set_ticks lottery_pot].
  split; [reflexivity|]. split; [|split; [|split; [|reflexivity]]].
  - eexists. split; [reflexivity|]. cbn.
    repeat (split; [reflexivity|]). apply next_id_is_fresh.
  - rewrite select_undrawn_app. f_equal.
    unfold select_undrawn, undrawn. cbn.
    rewrite String.eqb_refl, Z.eqb_refl. reflexivity.
  - intros ND. rewrite map_app. cbn [map id].
    apply NoDup_app; [exact ND | repeat constructor; intros [] |].
    intros x Hx [<-|[]].
    apply in_map_iff in Hx. destruct Hx as (t & E & Hin).
    pose proof (next_id_is_fresh (lottery_tickets w)) as F.
    rewrite Forall_forall in F. specialize (F t Hin). lia.
Qed.

End LedgerFacts.

(** ** More on the draw job *)

Module DrawMore.
Import Clock Py Model Statements MoreStatements Scenario.
Import Run WinnerFacts TransferFacts DrawFacts ScheduleFacts.
Local Open Scope monad_scope.

Lemma quiet_refl w : quiet w w.
Proof. unfold quiet. auto. Qed.

Lemma quiet_trans w1 w2 w3 : quiet w1 w2 -> quiet w2 w3 -> quiet w1 w3.
Proof.
  unfold quiet. intros (a1 & a2 & a3 & a4 & a5) (b1 & b2 & b3 & b4 & b5).
  repeat split; congruence.
Qed.

Lemma only_rolls_quiet w w' :
  only_rolls w w' -> quiet w w' /\ requests w' = requests w.
Proof. intros [n ->]. unfold quiet. cbn. auto 10. Qed.

Lemma pay_winner_quiet lottery draw prize winner_id acc w :
  quiet w (snd (pay_winner lottery draw prize winner_id acc w)).
Proof.
  unfold pay_winner, get_user. rewrite bind_gets.
  destruct (find _ (users w)) as [u|]; [|apply quiet_refl].
  rewrite bind_gets.
  destruct (transfer_sol_frame (OPERATOR_PRIVATE_KEY_BASE58 (config w))
              (wallet_address u) prize true w)
    as (r & w1 & E & _ & _ & Hu & Hq & Ht & Hc & Ho & _).
  rewrite (bind_ok _ _ _ _ _ E).
  destruct (truthy r); cbn; unfold quiet; cbn; auto 10.
Qed.

Lemma pay_winners_requests lottery draw prizes ws :
  forall i acc w,
    let w' := snd (pay_winners lottery draw prizes i ws acc w) in
    quiet w w'
    /\ requests w' = requests w ++ winner_requests (users w) prizes i ws.
Proof.
  induction ws as [|winner_id rest IH]; intros i acc w; cbv zeta.
  - cbn. rewrite app_nil_r. split; [apply quiet_refl|reflexivity].
  - cbn [pay_winners winner_requests].
    destruct (pay_winner_spec lottery draw (nth i prizes 0.0%float)
                winner_id acc w) as (tx & w1 & E & _).
    pose proof (pay_winner_quiet lottery draw (nth i prizes 0.0%float)
                  winner_id acc w) as Q.
    pose proof (pay_winner_requests lottery draw (nth i prizes 0.0%float)
                  winner_id acc w) as R.
    rewrite E in Q, R. cbn [snd] in Q, R.
    rewrite (bind_ok _ _ _ _ _ E).
    destruct (IH (S i) (acc ++ [ {| payout_winner := winner_id;
                                    payout_prize := nth i prizes 0.0%float;
                                    payout_tx := tx |} ]) w1) as [Q2 R2].
    split; [eapply quiet_trans; eassumption|].
    rewrite R2, R, <- app_assoc.
    destruct Q as (_ & _ & _ & -> & _). reflexivity.
Qed.

Lemma draw_with_tickets_trace lottery dt rows w :
  exists r w',
    draw_with_tickets lottery dt rows w = (Ok r, w')
    /\ quiet w w'
    /\ (List.length (winners r) <= 3)%nat
    /\ requests w'
       = requests w
         ++ cut_request (config w) (operator_cut r)
         ++ winner_requests (users w) (prizes r) 0 (winners r).
Proof.
  unfold draw_with_tickets, cut_request.
  destruct (select_winners_spec (expand_entries rows) w)
    as (ws & w1 & E1 & R1 & _ & _ & Hlen).
  apply only_rolls_quiet in R1. destruct R1 as [Q1 Rq1].
  rewrite (bind_ok _ _ _ _ _ E1).
  unfold get_lottery_info. rewrite bind_gets, bind_gets.
  assert (Hc : config w1 = config w) by apply Q1.
  assert (Hu : users w1 = users w) by apply Q1.
  rewrite Hc.
  set (total := match
                  match find (fun r => String.eqb (pot_type r) lottery)
                          (lottery_pot w1) with
                  | Some r => Some (pot r, ticket_price r, draw_time r)
                  | None => None
                  end
                with
                | Some info => fst (fst info)
                | None => 0.0%float
                end).
  destruct (OPERATOR_PAYOUT_WALLET_ADDRESS (config w)) as [address|].
  - rewrite bind_assoc, bind_gets, bind_assoc.
    destruct (transfer_sol_frame (OPERATOR_PRIVATE_KEY_BASE58 (config w1))
                address (total * OPERATOR_CUT_PERCENT)%float false w1)
      as (r & w2 & E2 & _ & _ & Hu2 & Hq2 & Ht2 & Hc2 & Ho2 & Hr2).
    rewrite (bind_ok _ _ _ _ _ E2), bind_ret. cbn [fst snd].
    pose proof (pay_winners_requests lottery dt
                  (tier_prizes (total - total * OPERATOR_CUT_PERCENT)%float)
                  ws 0%nat [] w2) as P. cbv zeta in P.
    destruct (pay_winners_spec lottery dt
                (tier_prizes (total - total * OPERATOR_CUT_PERCENT)%float)
                ws 0%nat [] w2) as (res & w3 & E3 & _).
    rewrite E3 in P. cbn [snd] in P. destruct P as [Q3 R3].
    rewrite (bind_ok _ _ _ _ _ E3).
    eexists _, w3. split; [reflexivity|]. cbn.
    split; [|split].
    + eapply quiet_trans; [exact Q1|].
      eapply quiet_trans; [|exact Q3].
      unfold quiet. auto.
    + rewrite Hlen. apply Nat.le_min_l.
    + rewrite R3, Hr2, Rq1, Hu2, Hu, <- app_assoc. reflexivity.
  - rewrite bind_ret. cbn [fst snd].
    pose proof (pay_winners_requests lottery dt (tier_prizes total)
                  ws 0%nat [] w1) as P. cbv zeta in P.
    destruct (pay_winners_spec lottery dt (tier_prizes total)
                ws 0%nat [] w1) as (res & w3 & E3 & _).
    rewrite E3 in P. cbn [snd] in P. destruct P as [Q3 R3].
    rewrite (bind_ok _ _ _ _ _ E3).
    eexists _, w3. split; [reflexivity|]. cbn.
    split; [|split].
    + eapply quiet_trans; eassumption.
    + rewrite Hlen. apply Nat.le_min_l.
    + rewrite R3, Rq1, Hu. reflexivity.
Qed.



(** X9.  A draw for a window without undrawn tickets does nothing but
    reschedule: it returns no report, requests no transfer, hands nothing
    to the node, draws no random number, leaves tickets and pots as they
    are, and queues the next job of the lottery. *)
Theorem draw_of_an_empty_window
    (lottery : string) (dt : datetime) (w : World) :
  select_undrawn lottery dt (lottery_tickets w) = [] ->
  let run := draw_job_callback lottery dt w in
  fst run = Ok None
  /\ requests (snd run) = requests w
  /\ submitted (snd run) = submitted w
  /\ rolls (snd run) = rolls w
  /\ lottery_tickets (snd run) = lottery_tickets w
  /\ lottery_pot (snd run) = lottery_pot w
  /\ job_queue (snd run)
     = job_queue w
       ++ [ job_for lottery (clock (outside w) (ticks w))
              (clock (outside w) (S (ticks w))) ].
Proof.
  intros H. cbv zeta. unfold draw_job_callback, undrawn_rows.
  rewrite bind_gets, H. cbn [nonempty negb]. rewrite bind_ret.
  unfold schedule_draw.
  cbv beta iota zeta delta [bind datetime_now modify ret].
  cbn. auto 10.
Qed.

Lemma draw_of_an_empty_window_witness :
  fst (draw_job_callback "hourly" window_2000
         (opening with_payout accepting_node)) = Ok None.
Proof.
  apply (draw_of_an_empty_window "hourly" window_2000
           (opening with_payout accepting_node)).
  reflexivity.
Defined.

Lemma draw_job_callback_trace lottery dt w :
  exists report w1 w',
    draw_job_callback lottery dt w = (Ok report, w')
    /\ quiet w w1
    /\ schedule_draw lottery w1 = (Ok tt, w')
    /\ requests w' = requests w1
    /\ match report with
       | None => requests w1 = requests w
       | Some r =>
           (List.length (winners r) <= 3)%nat
           /\ requests w1
              = requests w
                ++ cut_request (config w) (operator_cut r)
                ++ winner_requests (users w) (prizes r) 0 (winners r)
       end.
Proof.
  unfold draw_job_callback, undrawn_rows. rewrite bind_gets.
  destruct (select_undrawn lottery dt (lottery_tickets w)) as [|row rows].
  - cbn [nonempty negb]. rewrite bind_ret.
    destruct (schedule_draw_spec lottery w) as (w3 & E3 & _).
    rewrite (bind_ok _ _ _ _ _ E3).
    exists None, w, w3. split; [reflexivity|].
    split; [apply quiet_refl|]. split; [exact E3|].
    split; [|reflexivity].
    revert E3. unfold schedule_draw.
    cbv beta iota zeta delta [bind datetime_now modify].
    intros E3. injection E3 as <-. reflexivity.
  - cbn [nonempty negb].
    destruct (draw_with_tickets_trace lottery dt (row :: rows) w)
      as (r & w1 & E1 & Q1 & Hlen & Hreq).
    rewrite bind_assoc, (bind_ok _ _ _ _ _ E1), bind_ret.
    destruct (schedule_draw_spec lottery w1) as (w2 & E2 & _).
    rewrite (bind_ok _ _ _ _ _ E2).
    exists (Some r), w1, w2. split; [reflexivity|]. split; [exact Q1|].
    split; [exact E2|]. split; [|auto].
    revert E2. unfold schedule_draw.
    cbv beta iota zeta delta [bind datetime_now modify].
    intros E2. injection E2 as <-. reflexivity.
Qed.

(** X10.  The schedule never breaks: every run of the draw job, with or
    without tickets and whatever the node answers, returns normally and
    appends exactly one job for the same lottery, computed from the clock
    readings taken after the payouts; for the three cadences that job is
    for an instant strictly after the reading, with a delay that is not
    negative. *)
Theorem every_draw_queues_its_successor
    (lottery : string) (dt : datetime) (w : World) :
  let run := draw_job_callback lottery dt w in
  let successor :=
    job_for lottery (clock (outside w) (ticks w))
      (clock (outside w) (S (ticks w))) in
  (exists report, fst run = Ok report)
  /\ job_queue (snd run) = job_queue w ++ [successor]
  /\ (forall c, lottery = cadence_name c ->
        clock (outside w) (ticks w) < job_draw_datetime successor
        /\ 0 <= job_delay successor).
Proof.
  cbv zeta.
  destruct (draw_job_callback_trace lottery dt w)
    as (report & w1 & w' & E & (Hq & Ht & Ho & _) & S & _).
  rewrite E. cbn [fst snd]. split; [eauto|]. split.
  - destruct (schedule_draw_spec lottery w1) as (w2 & E2 & _ & Hjobs).
    rewrite E2 in S. injection S as <-.
    rewrite Hjobs, Hq, Ht, Ho. reflexivity.
  - intros c ->. apply job_for_is_ahead.
Qed.


Lemma count_occ_repeat (x owner : Z) (n : nat) :
  count_occ Z.eq_dec (repeat x n) owner = if x =? owner then n else 0%nat.
Proof.
  induction n as [|n IH]; cbn [repeat count_occ].
  - destruct (x =? owner); reflexivity.
  - destruct (Z.eq_dec x owner) as [E|N].
    + rewrite IH. apply Z.eqb_eq in E. rewrite E. reflexivity.
    + rewrite IH. apply Z.eqb_neq in N. rewrite N. reflexivity.
Qed.

Lemma select_winners_first entries w :
  entries <> [] ->
  exists rest,
    fst (select_winners entries w)
    = Ok (nth (entropy (outside w) (rolls w) mod List.length entries)%nat
              entries 0 :: rest).
Proof.
  intros Hne. unfold select_winners.
  destruct entries as [|e es]; [congruence|].
  cbn [nonempty].
  set (entries := e :: es) in *.
  set (first := nth (entropy (outside w) (rolls w) mod List.length entries)%nat
                    entries 0).
  assert (E1 : secrets_choice entries w
               = (Ok first, set_rolls w (S (rolls w)))) by reflexivity.
  rewrite bind_assoc, (bind_ok _ _ _ _ _ E1), bind_ret. cbn [fst snd app].
  set (w1 := set_rolls w (S (rolls w))).
  destruct (without first entries) as [|x xs] eqn:R1.
  - cbn. exists []. reflexivity.
  - cbn [nonempty].
    destruct (secrets_choice_spec (x :: xs) w1 ltac:(discriminate))
      as (second & _ & E2).
    rewrite bind_assoc, (bind_ok _ _ _ _ _ E2), bind_ret. cbn [fst snd app].
    destruct (without second (x :: xs)) as [|y ys] eqn:R2.
    + cbn. eexists. reflexivity.
    + cbn [nonempty].
      destruct (secrets_choice_spec (y :: ys)
                  (set_rolls w1 (S (rolls w1))) ltac:(discriminate))
        as (third & _ & E3).
      rewrite (bind_ok _ _ _ _ _ E3). cbn. eexists. reflexivity.
Qed.

(** X12.  Chances are counted by quantity: in the pool of a draw an owner
    has as many entries as the positive ticket counts of the owner's rows
    add up to; the first winner is the entry at the random index; and every
    owner with at least one entry is at some index, so can be drawn
    first. *)
Theorem chances_are_the_ticket_counts (rows : list (Z * Z)) (owner : Z) :
  let entries := expand_entries rows in
  count_occ Z.eq_dec entries owner = chances owner rows
  /\ (forall w, entries <> [] ->
        exists rest,
          fst (select_winners entries w)
          = Ok (nth (entropy (outside w) (rolls w) mod List.length entries)%nat
                    entries 0 :: rest))
  /\ ((0 < chances owner rows)%nat ->
      exists index,
        (index < List.length entries)%nat /\ nth index entries 0 = owner).
Proof.
  cbv zeta.
  assert (C : count_occ Z.eq_dec (expand_entries rows) owner
              = chances owner rows).
  { unfold expand_entries. induction rows as [|row rows IH]; [reflexivity|].
    cbn [flat_map chances fold_right].
    rewrite count_occ_app, count_occ_repeat.
    fold (chances owner rows). rewrite IH.
    destruct (fst row =? owner); reflexivity. }
  split; [exact C|]. split.
  - intros w. apply select_winners_first.
  - intros H. rewrite <- C in H.
    apply (count_occ_In Z.eq_dec) in H.
    apply (In_nth _ _ 0) in H. exact H.
Qed.

End DrawMore.

(** ** The pot the prizes are computed from *)

Module PrizeFacts.
Import Clock Py Model Statements MoreStatements.
Import Run WinnerFacts TransferFacts DrawFacts DrawMore.
Local Open Scope monad_scope.

(** The hash kept for the operator cut is the result of the cut transfer,
    made after the selection, when a payout address is configured. *)
Lemma draw_with_tickets_cut lottery dt rows w :
  exists r w',
    draw_with_tickets lottery dt rows w = (Ok r, w')
    /\ match OPERATOR_PAYOUT_WALLET_ADDRESS (config w) with
       | Some address =>
           fst (transfer_sol (OPERATOR_PRIVATE_KEY_BASE58 (config w)) address
                  (pot_read lottery w * OPERATOR_CUT_PERCENT)%float false
                  (snd (select_winners (expand_entries rows) w)))
           = Ok (operator_cut_tx_hash r)
       | None => operator_cut_tx_hash r = None
       end.
Proof.
  destruct (select_winners_spec (expand_entries rows) w)
    as (ws & w1 & E1 & R1 & _).
  apply only_rolls_kept in R1.
  rewrite E1. cbn [snd].
  unfold draw_with_tickets.
  rewrite (bind_ok _ _ _ _ _ E1).
  unfold bind at 1, get_lottery_info at 1, gets at 1.
  assert (Hpot :
    match
      match find (fun r => String.eqb (pot_type r) lottery) (lottery_pot w1)
      with
      | Some r => Some (pot r, ticket_price r, draw_time r)
      | None => None
      end
    with
    | Some info => fst (fst info)
    | None => 0.0%float
    end = pot_read lottery w).
  { rewrite <- (pot_read_kept lottery w w1 R1). unfold pot_read.
    destruct (find _ (lottery_pot w1)); reflexivity. }
  rewrite Hpot. clear Hpot.
  unfold bind at 1, gets at 1.
  assert (Hcfg : config w1 = config w) by apply R1.
  rewrite Hcfg.
  set (total := pot_read lottery w).
  destruct (OPERATOR_PAYOUT_WALLET_ADDRESS (config w)) as [address|].
  - rewrite bind_assoc, bind_gets, bind_assoc.
    destruct (transfer_sol_kept (OPERATOR_PRIVATE_KEY_BASE58 (config w1))
                address (total * OPERATOR_CUT_PERCENT)%float false w1)
      as (r & w2 & E2 & K2).
    rewrite (bind_ok _ _ _ _ _ E2), bind_ret.
    cbn [fst snd].
    destruct (pay_winners_spec lottery dt
                (tier_prizes (total - total * OPERATOR_CUT_PERCENT)%float)
                ws 0%nat [] w2) as (res & w3 & E3 & _).
    rewrite (bind_ok _ _ _ _ _ E3).
    eexists _, w3. split; [reflexivity|]. cbn [operator_cut_tx_hash].
    rewrite <- Hcfg, E2. reflexivity.
  - rewrite bind_ret.
    cbn [fst snd].
    destruct (pay_winners_spec lottery dt (tier_prizes total)
                ws 0%nat [] w1) as (res & w3 & E3 & _).
    rewrite (bind_ok _ _ _ _ _ E3).
    eexists _, w3. split; reflexivity.
Qed.

(** C4, as the code has it.  In a draw that found tickets the pot that the
    prizes are computed from is decided by the configuration alone: the
    total pot less the operator cut when an operator payout address is
    configured, whatever the cut transfer returned, and the full total pot
    when none is configured.  The prizes are 70%, 20% and 10% of that pot;
    these are the prizes recorded for the winners in draw order and the
    amounts of the transfers requested for the winners, after the request
    for the cut. *)
Theorem remaining_pot_follows_configuration
    (lottery : string) (dt : datetime) (w : World) :
  let run := draw_job_callback lottery dt w in
  let rows := select_undrawn lottery dt (lottery_tickets w) in
  let total := pot_read lottery w in
  let cut := (total * OPERATOR_CUT_PERCENT)%float in
  let pot_for_prizes :=
    match OPERATOR_PAYOUT_WALLET_ADDRESS (config w) with
    | Some _ => (total - cut)%float
    | None => total
    end in
  let computed :=
    [ (pot_for_prizes * 0.70)%float; (pot_for_prizes * 0.20)%float;
      (pot_for_prizes * 0.10)%float ] in
  match fst run with
  | Ok (Some r) =>
      total_pot r = total
      /\ operator_cut r = cut
      /\ match OPERATOR_PAYOUT_WALLET_ADDRESS (config w) with
         | Some address =>
             fst (transfer_sol (OPERATOR_PRIVATE_KEY_BASE58 (config w))
                    address cut false
                    (snd (select_winners (expand_entries rows) w)))
             = Ok (operator_cut_tx_hash r)
         | None => operator_cut_tx_hash r = None
         end
      /\ remaining_pot r = pot_for_prizes
      /\ prizes r = computed
      /\ map payout_winner (results r) = winners r
      /\ map payout_prize (results r)
         = firstn (List.length (winners r)) computed
      /\ requests (snd run)
         = requests w
           ++ cut_request (config w) cut
           ++ winner_requests (users w) computed 0 (winners r)
  | Ok None => rows = []
  | Raise _ => False
  end.
Proof.
  cbv zeta.
  destruct (draw_job_callback_trace lottery dt w)
    as (report & w1 & w' & E & _ & _ & Hreq' & Htrace).
  destruct (draw_job_callback_spec lottery dt w)
    as (report2 & w2 & E2 & _ & H).
  rewrite E in E2. injection E2 as <- <-.
  rewrite E. cbn [fst snd]. destruct report as [r|]; [|exact H].
  destruct H as [_ H]. destruct Htrace as [Hlen Hreq].
  destruct (draw_with_tickets_spec lottery dt
              (select_undrawn lottery dt (lottery_tickets w)) w)
    as (r' & w3 & E3 & _ & _ & Htot & Hcut & Hrem & _ & Hpr & Hw & Hp).
  destruct (draw_with_tickets_cut lottery dt
              (select_undrawn lottery dt (lottery_tickets w)) w)
    as (r'' & w4 & E4 & Hhash).
  rewrite E3 in E4. injection E4 as <- <-.
  rewrite E3 in H. cbn [fst] in H. injection H as ->.
  rewrite Htot in Hcut. rewrite Htot, Hcut in Hrem.
  rewrite Hrem in Hpr. unfold tier_prizes in Hpr.
  split; [exact Htot|]. split; [exact Hcut|]. split; [exact Hhash|].
  split; [exact Hrem|]. split; [exact Hpr|]. split; [exact Hw|].
  split.
  - rewrite Hp, Hpr.
    destruct (winners r) as [|a [|b [|c [|d l]]]]; try reflexivity.
    exfalso. simpl List.length in Hlen. lia.
  - rewrite Hreq', Hreq, Hcut, Hpr. reflexivity.
Qed.

End PrizeFacts.

(** ** The users table and the wallet handlers *)

Module AccountFacts.
Import Clock Py Model Statements MoreStatements Accounts.
Import Run TransferFacts DrawFacts.
Local Open Scope monad_scope.

Lemma find_without tid tid' us :
  find (fun u => user_id u =? tid')
       (filter (fun u => negb (user_id u =? tid)) us)
  = if tid' =? tid then None else find (fun u => user_id u =? tid') us.
Proof.
  induction us as [|u us IH]; cbn [filter find].
  - destruct (tid' =? tid); reflexivity.
  - destruct (Z.eqb_spec (user_id u) tid) as [E|N]; cbn [negb].
    + rewrite IH. destruct (Z.eqb_spec tid' tid) as [E'|N']; [reflexivity|].
      destruct (Z.eqb_spec (user_id u) tid'); [congruence|reflexivity].
    + cbn [find]. destruct (Z.eqb_spec (user_id u) tid') as [E'|N'].
      * destruct (Z.eqb_spec tid' tid); [congruence|reflexivity].
      * exact IH.
Qed.

Lemma users_after_create tid address key name w :
  users (snd (create_user tid address key name w))
  = filter (fun u => negb (user_id u =? tid)) (users w)
    ++ [ {| user_id := tid; wallet_address := address;
            private_key := key; username := name |} ].
Proof. reflexivity. Qed.

Lemma find_after_create tid address key name w tid' :
  find (fun u => user_id u =? tid')
       (users (snd (create_user tid address key name w)))
  = if tid' =? tid
    then Some {| user_id := tid; wallet_address := address;
                 private_key := key; username := name |}
    else find (fun u => user_id u =? tid') (users w).
Proof.
  rewrite users_after_create.
  rewrite (LedgerFacts.find_app_one (fun u => user_id u =? tid')).
  rewrite find_without. cbn [user_id]. rewrite (Z.eqb_sym tid tid').
  destruct (tid' =? tid); [reflexivity|].
  destruct (find _ (users w)); reflexivity.
Qed.

Lemma filter_without_same tid us :
  filter (fun u => user_id u =? tid)
         (filter (fun u => negb (user_id u =? tid)) us) = [].
Proof.
  induction us as [|u us IH]; [reflexivity|]. cbn [filter].
  destruct (user_id u =? tid) eqn:E; cbn [negb]; [exact IH|].
  cbn [filter]. rewrite E. exact IH.
Qed.

(** X13.  [create_user] stores one row per user: afterwards the lookup of
    the id gives exactly the new row, the lookup of every other id gives
    what it gave before, the table holds exactly one row of that id, ids
    that were distinct stay distinct, and the tickets are not touched. *)
Theorem create_user_replaces_the_row
    (tid : Z) (address key name : string) (w : World) :
  let w' := snd (create_user tid address key name w) in
  (forall tid',
      fst (get_user tid' w')
      = if tid' =? tid
        then Ok (Some {| user_id := tid; wallet_address := address;
                         private_key := key; username := name |})
        else fst (get_user tid' w))
  /\ List.length (filter (fun u => user_id u =? tid) (users w')) = 1%nat
  /\ (NoDup (map user_id (users w)) -> NoDup (map user_id (users w')))
  /\ lottery_tickets w' = lottery_tickets w.
Proof.
  cbv zeta.
  assert (Gone : ~ In tid (map user_id
                    (filter (fun u => negb (user_id u =? tid)) (users w)))).
  { intros H. apply in_map_iff in H. destruct H as (u & E & Hin).
    apply filter_In in Hin. destruct Hin as [_ Hin].
    rewrite E, Z.eqb_refl in Hin. discriminate. }
  split; [|split; [|split; [|reflexivity]]].
  - intros tid'. unfold get_user, gets. cbn [fst].
    rewrite find_after_create. destruct (tid' =? tid); reflexivity.
  - rewrite users_after_create, filter_app, filter_without_same.
    cbn [filter user_id app]. rewrite Z.eqb_refl. reflexivity.
  - intros ND. rewrite users_after_create, map_app. cbn [map user_id].
    apply NoDup_app.
    + clear Gone. induction (users w) as [|u us IH]; [constructor|].
      cbn [map] in ND. inversion ND as [|? ? Hn ND']; subst.
      cbn [filter]. destruct (negb (user_id u =? tid)); [|auto].
      cbn [map]. constructor; [|auto].
      intros H. apply Hn. apply in_map_iff in H.
      destruct H as (v & E & Hin). apply filter_In in Hin.
      apply in_map_iff. exists v. tauto.
    + repeat constructor. intros [].
    + intros x Hx [<-|[]]. exact (Gone Hx).
Qed.

Lemma filter_absent tid us :
  find (fun u => user_id u =? tid) us = None ->
  filter (fun u => negb (user_id u =? tid)) us = us.
Proof.
  induction us as [|u us IH]; [reflexivity|]. cbn [find filter].
  destruct (user_id u =? tid); [discriminate|].
  intros H. cbn [negb]. rewrite (IH H). reflexivity.
Qed.

Lemma find_map_same_id (f : User -> User) tid us :
  (forall u, user_id (f u) = user_id u) ->
  find (fun u => user_id u =? tid) (map f us)
  = option_map f (find (fun u => user_id u =? tid) us).
Proof.
  intros Hf. induction us as [|u us IH]; [reflexivity|].
  cbn [map find]. rewrite Hf.
  destruct (user_id u =? tid); [reflexivity|exact IH].
Qed.

(** X14.  [create_wallet_callback] never overwrites a wallet: for a user
    who has a row the handler changes nothing at all; for a user without
    one it appends the generated wallet with the empty username, leaving
    every other row and every ticket as it was, and the lookup then finds
    that wallet. *)
Theorem create_wallet_callback_keeps_an_existing_wallet
    (tid : Z) (generated : string * string) (w : World) :
  let call := create_wallet_callback tid generated w in
  let row := {| user_id := tid; wallet_address := fst generated;
                private_key := snd generated; username := "" |} in
  match find (fun u => user_id u =? tid) (users w) with
  | Some _ => call = (Ok false, w)
  | None =>
      fst call = Ok true
      /\ users (snd call) = users w ++ [row]
      /\ fst (get_user tid (snd call)) = Ok (Some row)
      /\ lottery_tickets (snd call) = lottery_tickets w
      /\ lottery_pot (snd call) = lottery_pot w
  end.
Proof.
  cbv zeta. unfold create_wallet_callback, get_user.
  rewrite bind_gets.
  destruct (find (fun u => user_id u =? tid) (users w)) eqn:F;
    [reflexivity|].
  cbv beta iota zeta delta [bind create_user datetime_now modify ret].
  cbn [fst snd users set_users set_ticks lottery_tickets lottery_pot].
  rewrite (filter_absent _ _ F).
  split; [reflexivity|]. split; [reflexivity|].
  split; [|split; reflexivity].
  unfold gets. cbn [fst users set_users].
  rewrite (LedgerFacts.find_app_one (fun u => user_id u =? tid)), F.
  cbn [user_id]. rewrite Z.eqb_refl. reflexivity.
Qed.

(** X15.  [receive_import_wallet] replaces the wallet of the user.  A key
    that the key library refuses, or one whose address is empty, changes
    nothing.  Otherwise the user's row becomes the imported address and
    key with the username reset to the empty default, the other users and
    all tickets stay, and a prize later paid to the user is requested for
    the imported address. *)
Theorem import_replaces_the_wallet
    (tid : Z) (private_key_input : string) (w : World) :
  let call := receive_import_wallet tid private_key_input w in
  match keypair_from_private_key (rpc_of w) private_key_input with
  | Raise _ => call = (Ok false, w)
  | Ok address =>
      if String.eqb address "" then call = (Ok false, w)
      else
        fst call = Ok true
        /\ (forall tid',
              fst (get_user tid' (snd call))
              = if tid' =? tid
                then Ok (Some {| user_id := tid; wallet_address := address;
                                 private_key := private_key_input;
                                 username := "" |})
                else fst (get_user tid' w))
        /\ lottery_tickets (snd call) = lottery_tickets w
        /\ (forall lottery draw prize results,
              requests (snd (pay_winner lottery draw prize tid results
                               (snd call)))
              = requests w
                ++ [ {| req_to := address; req_amount := prize;
                        req_cap := true |} ])
  end.
Proof.
  cbv zeta. unfold receive_import_wallet, import_wallet_from_secret.
  rewrite bind_assoc, bind_gets.
  destruct (keypair_from_private_key (rpc_of w) private_key_input)
    as [address|e]; [|reflexivity].
  rewrite bind_ret. cbn [fst snd truthy py_str].
  destruct (String.eqb address ""); cbn [negb]; [reflexivity|].
  change (bind (create_user tid address private_key_input "")
               (fun _ => ret true) w)
    with (Ok true, snd (create_user tid address private_key_input "" w)).
  cbn [fst snd].
  split; [reflexivity|]. split; [|split; [reflexivity|]].
  - intros tid'. unfold get_user, gets. cbn [fst].
    rewrite find_after_create. destruct (tid' =? tid); reflexivity.
  - intros lottery draw prize results.
    rewrite pay_winner_requests, find_after_create, Z.eqb_refl.
    reflexivity.
Qed.

(** X16.  [confirm_delete_wallet_callback] removes the user's row and
    nothing else: the other users, the tickets and the pots stay.  The
    tickets of the deleted user therefore remain in the draws, and when
    such a ticket is picked the payout loop records "Winner not found"
    without requesting a transfer or changing anything. *)
Theorem deleted_user_keeps_tickets_but_not_prizes (tid : Z) (w : World) :
  let w' := snd (confirm_delete_wallet_callback tid w) in
  (forall tid',
      fst (get_user tid' w')
      = if tid' =? tid then Ok None else fst (get_user tid' w))
  /\ lottery_tickets w' = lottery_tickets w
  /\ lottery_pot w' = lottery_pot w
  /\ (forall lottery draw prize results,
        pay_winner lottery draw prize tid results w'
        = (Ok (results ++ [ {| payout_winner := tid; payout_prize := prize;
                               payout_tx := "Winner not found" |} ]), w')).
Proof.
  cbv zeta.
  assert (F : forall tid',
             find (fun u => user_id u =? tid')
                  (users (snd (confirm_delete_wallet_callback tid w)))
             = if tid' =? tid then None
               else find (fun u => user_id u =? tid') (users w)).
  { intros tid'. exact (find_without tid tid' (users w)). }
  split; [|split; [reflexivity|split; [reflexivity|]]].
  - intros tid'. unfold get_user, gets. cbn [fst]. rewrite F.
    destruct (tid' =? tid); reflexivity.
  - intros lottery draw prize results.
    unfold pay_winner, get_user. rewrite bind_gets, F, Z.eqb_refl.
    reflexivity.
Qed.

(** X17.  [receive_username_callback] changes the name and nothing else:
    every lookup finds the row it found before, renamed if it is the
    user's; a user without a row still has none; ids, wallets and keys
    are what they were. *)
Theorem update_username_changes_the_name_only
    (tid : Z) (name : string) (w : World) :
  let w' := snd (receive_username_callback tid name w) in
  (forall tid',
      fst (get_user tid' w')
      = Ok (option_map (fun u => if tid' =? tid then rename name u else u)
              (find (fun u => user_id u =? tid') (users w))))
  /\ map user_id (users w') = map user_id (users w)
  /\ map wallet_address (users w') = map wallet_address (users w)
  /\ map private_key (users w') = map private_key (users w)
  /\ lottery_tickets w' = lottery_tickets w.
Proof.
  cbv zeta.
  unfold receive_username_callback, update_username, modify.
  cbn [snd users set_users lottery_tickets].
  set (f := fun u : User => if user_id u =? tid then rename name u else u).
  assert (Hid : forall u, user_id (f u) = user_id u).
  { intros u. unfold f. destruct (user_id u =? tid); reflexivity. }
  split; [|split; [|split; [|split; [|reflexivity]]]].
  - intros tid'. unfold get_user, gets. cbn [fst users set_users].
    rewrite (find_map_same_id f tid' (users w) Hid).
    destruct (find (fun u => user_id u =? tid') (users w)) as [u|] eqn:F;
      [|reflexivity].
    apply find_some in F. destruct F as [_ F].
    apply Z.eqb_eq in F. cbn [option_map]. unfold f. rewrite F.
    reflexivity.
  - rewrite map_map. apply map_ext. exact Hid.
  - rewrite map_map. apply map_ext. intros u. unfold f.
    destruct (user_id u =? tid); reflexivity.
  - rewrite map_map. apply map_ext. intros u. unfold f.
    destruct (user_id u =? tid); reflexivity.
Qed.

End AccountFacts.

(** ** Purchases in a chat session *)

Module SessionFacts.
Import Clock Py Model Statements MoreStatements Scenario Sessions.
Import Run TransferFacts WindowFacts.
Local Open Scope monad_scope.

(** A run of the confirmation body: it returns, leaves the users, the
    configuration, the outside and the queue alone, and either changes
    nothing, or enters the one request for the price and then records
    the ticket and the pot if and only if the transfer gave a result. *)
Lemma confirm_buy_ticket_run lottery tid pending w :
  exists outcome w',
    confirm_buy_ticket lottery tid pending w = (Ok outcome, w')
    /\ users w' = users w /\ config w' = config w
    /\ outside w' = outside w /\ job_queue w' = job_queue w
    /\ match find (fun u => user_id u =? tid) (users w), pending with
       | Some u, Some price =>
           requests w'
           = requests w
             ++ [ {| req_to := py_str (OPERATOR_WALLET_ADDRESS (config w));
                     req_amount := price; req_cap := false |} ]
           /\ ((outcome = TransferFailed
                /\ lottery_tickets w' = lottery_tickets w
                /\ lottery_pot w' = lottery_pot w)
               \/ (exists h,
                     outcome = TicketPurchased h
                     /\ lottery_tickets w'
                        = lottery_tickets w
                          ++ [ {| id := next_id (lottery_tickets w);
                                  telegram_id := tid;
                                  lottery_type := lottery;
                                  draw_date :=
                                    get_next_draw_datetime
                                      (clock (outside w) (ticks w)) lottery;
                                  ticket_count := 1;
                                  amount_spent := price;
                                  won := 0.0%float;
                                  drawn := 0;
                                  purchased_at :=
                                    clock (outside w) (S (ticks w)) |} ]))
       | _, _ => w' = w /\ outcome = NoPendingPurchase
       end.
Proof.
  unfold confirm_buy_ticket, get_user. rewrite bind_gets.
  destruct (find (fun u => user_id u =? tid) (users w)) as [u|];
    [|eexists _, _; split; [reflexivity|]; auto 10].
  destruct pending as [price|];
    [|eexists _, _; split; [reflexivity|]; auto 10].
  rewrite bind_gets.
  destruct (transfer_sol_frame (private_key u)
              (py_str (OPERATOR_WALLET_ADDRESS (config w))) price false w)
    as (tx_hash & w1 & E & Ht & Hp & Hu & Hj & Hticks & Hc & Hout & Hreq).
  rewrite (bind_ok _ _ _ _ _ E).
  destruct (truthy tx_hash).
  - cbv beta iota zeta
        delta [bind datetime_now add_ticket update_lottery_pot modify ret].
    eexists _, _. split; [reflexivity|].
    cbn. rewrite Ht, Hticks, Hout.
    repeat (split; [first [assumption | reflexivity]|]).
    right. eexists. split; reflexivity.
  - eexists _, _. split; [reflexivity|].
    repeat (split; [assumption|]).
    left. auto.
Qed.

(** X18.  A pending purchase is spent by one confirmation.  With a user
    row and a pending purchase, the handler enters exactly one transfer
    request, for the pending price without the cap flag, and the session
    entry is gone whether or not the transfer succeeded; confirming again,
    for any lottery, then answers "No pending purchase" and changes
    nothing.  Without a user row or without an entry the handler changes
    nothing and keeps the session as it is.  After a cancellation a
    confirmation changes nothing either. *)
Theorem a_pending_purchase_is_spent_once
    (lottery : string) (tid : Z) (pending_purchase : option PendingPurchase)
    (w : World) :
  exists outcome left w',
    confirm_buy_ticket_in_session lottery tid pending_purchase w
    = (Ok (outcome, left), w')
    /\ match find (fun u => user_id u =? tid) (users w), pending_purchase with
       | Some _, Some purchase =>
           left = None
           /\ requests w'
              = requests w
                ++ [ {| req_to := py_str (OPERATOR_WALLET_ADDRESS (config w));
                        req_amount := pending_ticket_price purchase;
                        req_cap := false |} ]
           /\ forall lottery',
                confirm_buy_ticket_in_session lottery' tid left w'
                = (Ok (NoPendingPurchase, None), w')
       | _, _ =>
           outcome = NoPendingPurchase /\ left = pending_purchase /\ w' = w
       end
    /\ forall lottery' w'',
         confirm_buy_ticket_in_session lottery' tid
           (cancel_buy_ticket_callback pending_purchase) w''
         = (Ok (NoPendingPurchase, None), w'').
Proof.
  assert (Nothing : forall lottery' w'',
             confirm_buy_ticket_in_session lottery' tid None w''
             = (Ok (NoPendingPurchase, None), w'')).
  { intros lottery' w''. unfold confirm_buy_ticket_in_session, get_user.
    rewrite bind_gets. destruct (find _ (users w'')); reflexivity. }
  assert (Cancelled : cancel_buy_ticket_callback pending_purchase = None)
    by (destruct pending_purchase; reflexivity).
  rewrite Cancelled.
  unfold confirm_buy_ticket_in_session at 1, get_user. rewrite bind_gets.
  destruct (find (fun u => user_id u =? tid) (users w)) as [u|] eqn:F;
    [|eexists _, _, _; split; [reflexivity|]; auto].
  destruct pending_purchase as [purchase|];
    [|eexists _, _, _; split; [reflexivity|]; auto].
  destruct (confirm_buy_ticket_run lottery tid
              (Some (pending_ticket_price purchase)) w)
    as (outcome & w1 & E & _ & _ & _ & _ & H).
  rewrite F in H. destruct H as [Hreq _].
  rewrite (bind_ok _ _ _ _ _ E).
  exists outcome, None, w1. split; [reflexivity|]. auto.
Qed.

Lemma select_undrawn_one lottery due t :
  select_undrawn lottery due [t]
  = if undrawn lottery due t then [(telegram_id t, ticket_count t)] else [].
Proof.
  unfold select_undrawn. cbn [filter].
  destruct (undrawn lottery due t); reflexivity.
Qed.

(** X19.  A purchase joins the draw that is queued.  Let a draw of a
    cadence be queued from the clock reading [now0], and let a purchase of
    that cadence be confirmed with success at a reading not before [now0].
    If that reading is before the instant of the queued draw, the new
    ticket is among the rows this draw selects, after the rows selected
    before, with quantity 1.  If the reading is at or after that instant
    (the job is late), the ticket belongs to a later window and the queued
    draw does not select it. *)
Theorem a_purchase_joins_the_queued_draw
    (c : Cadence) (tid : Z) (price : float) (now0 now1 : datetime)
    (w : World) (tx_hash : string) :
  let lottery := cadence_name c in
  let due := job_draw_datetime (job_for lottery now0 now1) in
  let reading := clock (outside w) (ticks w) in
  let call := confirm_buy_ticket lottery tid (Some price) w in
  now0 <= reading ->
  fst call = Ok (TicketPurchased tx_hash) ->
  (reading < due ->
   select_undrawn lottery due (lottery_tickets (snd call))
   = select_undrawn lottery due (lottery_tickets w) ++ [(tid, 1)])
  /\ (due <= reading ->
      select_undrawn lottery due (lottery_tickets (snd call))
      = select_undrawn lottery due (lottery_tickets w)).
Proof.
  cbv zeta. cbn [job_for job_draw_datetime]. intros Hle Hok.
  destruct (confirm_buy_ticket_run (cadence_name c) tid (Some price) w)
    as (outcome & w1 & E & _ & _ & _ & _ & H).
  rewrite E in Hok |- *. cbn [fst snd] in Hok |- *.
  injection Hok as ->.
  destruct (find (fun u => user_id u =? tid) (users w));
    [|destruct H as [_ H]; discriminate].
  destruct H as [_ [(H & _)|(h & _ & Ht)]]; [discriminate|].
  rewrite Ht, LedgerFacts.select_undrawn_app, select_undrawn_one.
  unfold undrawn.
  cbn [lottery_type draw_date drawn telegram_id ticket_count].
  rewrite String.eqb_refl. cbn [andb].
  split; intros Hdue.
  - rewrite (next_draw_stable c now0 _ Hle Hdue), Z.eqb_refl.
    reflexivity.
  - pose proof (next_draw_after c (clock (outside w) (ticks w))) as A.
    destruct (Z.eqb_spec
                (get_next_draw_datetime (clock (outside w) (ticks w))
                   (cadence_name c))
                (get_next_draw_datetime now0 (cadence_name c))) as [Eq|Ne];
      [lia|].
    cbn [andb]. rewrite app_nil_r. reflexivity.
Qed.

Lemma a_purchase_joins_the_queued_draw_witness :
  select_undrawn "daily" window_2000
    (lottery_tickets
       (after (confirm_buy_ticket "daily" 1 (Some 0.001%float))
              (opening with_payout accepting_node)))
  = [(1, 1)].
Proof.
  apply (proj1 (a_purchase_joins_the_queued_draw Daily 1 0.001%float
                  (sunday_2024_03_10 19 0 0) (sunday_2024_03_10 19 0 1)
                  (opening with_payout accepting_node) "signature"
                  ltac:(vm_compute; congruence) ltac:(vm_compute; reflexivity))).
  vm_compute. reflexivity.
Defined.

End SessionFacts.

(** ** Withdrawals *)

Module WithdrawFacts.
Import Clock Py Model Statements Withdrawals.
Import Run TransferFacts.
Local Open Scope monad_scope.

(** X20.  [receive_withdraw_amount] always answers, never touches the
    tickets, the pots or the users, and hands at most one transaction to
    the node.  It hands one over only if the text was a number, the amount
    is not at or below zero, the user has a row, the balance of the wallet
    on file is not below the amount, the key on file parses, the balance of
    its address covers the amount plus the rent-exemption minimum, and the
    destination parses; the transaction then goes from the address of the
    key to the destination stored in the session and carries the lamports
    of exactly the amount asked, never a capped one.  "Withdrawal
    successful" is answered only with the node's non-empty answer to that
    transaction. *)
Theorem a_withdrawal_sends_what_was_asked
    (parsed : exc float) (tid : Z) (withdraw_address : string) (w : World) :
  let call := receive_withdraw_amount parsed tid withdraw_address w in
  let rpc := rpc_of w in
  exists outcome,
    fst call = Ok outcome
    /\ lottery_tickets (snd call) = lottery_tickets w
    /\ lottery_pot (snd call) = lottery_pot w
    /\ users (snd call) = users w
    /\ ((submitted (snd call) = submitted w
         /\ match outcome with
            | WithdrawalSuccessful _ => False
            | _ => True
            end)
        \/ exists amount u sender receiver tx,
             parsed = Ok amount
             /\ (amount <=? 0)%float = false
             /\ find (fun u => user_id u =? tid) (users w) = Some u
             /\ (get_onchain_balance rpc (wallet_address u) <? amount)%float
                = false
             /\ keypair_from_private_key rpc (private_key u) = Ok sender
             /\ (get_onchain_balance rpc sender
                 <? amount + MIN_RENT_EXEMPT_SOL)%float = false
             /\ public_key rpc withdraw_address = Ok receiver
             /\ tx_from tx = sender /\ tx_to tx = receiver
             /\ int_of_float (amount * 1000000000)%float
                = Ok (tx_lamports tx)
             /\ submitted (snd call) = submitted w ++ [tx]
             /\ requests (snd call)
                = requests w
                  ++ [ {| req_to := withdraw_address; req_amount := amount;
                          req_cap := false |} ]
             /\ match outcome with
                | WithdrawalSuccessful tx_hash =>
                    send_transaction rpc tx = Ok (Some tx_hash)
                    /\ tx_hash <> ""%string
                | WithdrawalFailed => True
                | _ => False
                end).
Proof.
  cbv zeta. unfold receive_withdraw_amount.
  destruct parsed as [amount|e];
    [|exists InvalidAmount; cbn; auto 10].
  destruct (amount <=? 0)%float eqn:Hpos;
    [exists InvalidAmount; cbn; auto 10|].
  unfold get_user. rewrite bind_gets.
  destruct (find (fun u => user_id u =? tid) (users w)) as [u|] eqn:F;
    [|exists UserNotFound; cbn; auto 10].
  rewrite bind_gets.
  destruct (get_onchain_balance (rpc_of w) (wallet_address u) <? amount)%float
    eqn:Hbal; [exists InsufficientFunds; cbn; auto 10|].
  destruct (transfer_sol_cases (private_key u) withdraw_address amount false w)
    as [E|(sender & receiver & lamports & blockhash & H)].
  - rewrite (bind_ok _ _ _ _ _ E). cbn [truthy].
    exists WithdrawalFailed. cbn. auto 10.
  - cbv zeta in H. destruct H as (Hk & _ & Hrent & Hr & Hl & _ & E).
    rewrite (bind_ok _ _ _ _ _ E).
    set (tx := {| tx_from := sender; tx_to := receiver;
                  tx_lamports := lamports; tx_blockhash := blockhash |}) in *.
    assert (Shape :
      forall outcome,
        match outcome with
        | WithdrawalSuccessful tx_hash =>
            send_transaction (rpc_of w) tx = Ok (Some tx_hash)
            /\ tx_hash <> ""%string
        | WithdrawalFailed => True
        | _ => False
        end ->
        exists amount0 u0 sender0 receiver0 tx0,
          Ok amount = Ok amount0
          /\ (amount0 <=? 0)%float = false
          /\ Some u = Some u0
          /\ (get_onchain_balance (rpc_of w) (wallet_address u0)
              <? amount0)%float = false
          /\ keypair_from_private_key (rpc_of w) (private_key u0)
             = Ok sender0
          /\ (get_onchain_balance (rpc_of w) sender0
              <? amount0 + MIN_RENT_EXEMPT_SOL)%float = false
          /\ public_key (rpc_of w) withdraw_address = Ok receiver0
          /\ tx_from tx0 = sender0 /\ tx_to tx0 = receiver0
          /\ int_of_float (amount0 * 1000000000)%float
             = Ok (tx_lamports tx0)
          /\ submitted w ++ [tx] = submitted w ++ [tx0]
          /\ requests w
             ++ [ {| req_to := withdraw_address; req_amount := amount;
                     req_cap := false |} ]
             = requests w
               ++ [ {| req_to := withdraw_address; req_amount := amount0;
                       req_cap := false |} ]
          /\ match outcome with
             | WithdrawalSuccessful tx_hash =>
                 send_transaction (rpc_of w) tx0 = Ok (Some tx_hash)
                 /\ tx_hash <> ""%string
             | WithdrawalFailed => True
             | _ => False
             end).
    { intros outcome Hout.
      exists amount, u, sender, receiver, tx.
      repeat (split; [first [reflexivity | assumption | exact (Hrent eq_refl)]
                     |]).
      exact Hout. }
    destruct (send_transaction (rpc_of w) tx) as [[answer|]|e] eqn:Hs.
    + cbn [truthy].
      destruct (String.eqb_spec answer "") as [Hempty|Hfull]; cbn [negb].
      * exists WithdrawalFailed. cbn. repeat (split; [reflexivity|]).
        right. apply (Shape WithdrawalFailed). exact I.
      * exists (WithdrawalSuccessful answer). cbn.
        repeat (split; [reflexivity|]).
        right. apply (Shape (WithdrawalSuccessful answer)).
        split; [reflexivity|exact Hfull].
    + exists WithdrawalFailed. cbn. repeat (split; [reflexivity|]).
      right. apply (Shape WithdrawalFailed). exact I.
    + exists WithdrawalFailed. cbn. repeat (split; [reflexivity|]).
      right. apply (Shape WithdrawalFailed). exact I.
Qed.

End WithdrawFacts.

(** ** The transaction history *)

Module HistoryFacts.
Import Clock Py Model Statements MoreStatements History.
Local Open Scope monad_scope.

Lemma firstn_add_skipn {A} (a b : nat) (l : list A) :
  firstn (a + b) l = firstn a l ++ firstn b (skipn a l).
Proof.
  revert l. induction a as [|a IH]; intros l; [reflexivity|].
  destruct l as [|x l]; cbn [Nat.add firstn skipn app].
  - rewrite firstn_nil. reflexivity.
  - rewrite IH. reflexivity.
Qed.

(** A slice with a start that is not negative and a length that is not
    negative: skip the start, take the length. *)
Lemma py_slice_from {A} (l : list A) (start len : Z) :
  0 <= start -> 0 <= len ->
  py_slice l start (start + len)
  = firstn (Z.to_nat len) (skipn (Z.to_nat start) l).
Proof.
  intros Hs Hl. unfold py_slice, slice_index.
  set (n := Z.of_nat (List.length l)).
  destruct (Z.ltb_spec start 0) as [?|_]; [lia|].
  destruct (Z.ltb_spec (start + len) 0) as [?|_]; [lia|].
  destruct (Z.ltb_spec n start) as [Hn|Hn].
  - rewrite (skipn_all2 (n := Z.to_nat start)) by (subst n; lia).
    rewrite (skipn_all2 (n := Z.to_nat n)) by (subst n; lia).
    rewrite !firstn_nil. reflexivity.
  - destruct (Z.ltb_spec n (start + len)) as [Hm|Hm].
    + rewrite !firstn_all2; [reflexivity| |];
        rewrite length_skipn; subst n; lia.
    + f_equal. lia.
Qed.

Lemma page_is_a_block (tickets : list Ticket) (k : nat) :
  page_tickets (history_view tickets (Z.of_nat (S k)))
  = firstn 5 (skipn (5 * k) tickets).
Proof.
  unfold history_view. cbv zeta. cbn [page_tickets].
  rewrite py_slice_from by lia.
  f_equal. f_equal. lia.
Qed.

Lemma pages_upto_firstn (tickets : list Ticket) (k : nat) :
  pages_upto tickets k = firstn (5 * k) tickets.
Proof.
  induction k as [|k IH]; [reflexivity|].
  cbn [pages_upto]. rewrite IH, page_is_a_block.
  replace (5 * S k)%nat with (5 * k + 5)%nat by lia.
  rewrite firstn_add_skipn. reflexivity.
Qed.

(** X21.  The history shows every ticket once.  Browsing from page 1 to
    page [k] shows the first [5 * k] tickets of the list, in order and
    without repetition, so all of them once the pages reach the end of the
    list; no page holds more than five.  On page [k] the Next button is
    offered exactly when tickets remain beyond it, and the Previous button
    exactly when [k] is above 1. *)
Theorem history_pages_show_every_ticket_once
    (tickets : list Ticket) (k : nat) :
  let view := history_view tickets (Z.of_nat k) in
  pages_upto tickets k = firstn (5 * k) tickets
  /\ ((List.length tickets <= 5 * k)%nat -> pages_upto tickets k = tickets)
  /\ (List.length (page_tickets view) <= 5)%nat
  /\ next_button view = (5 * k <? List.length tickets)%nat
  /\ previous_button view = (1 <? k)%nat.
Proof.
  cbv zeta. split; [apply pages_upto_firstn|].
  split; [intros H; rewrite pages_upto_firstn; apply firstn_all2; exact H|].
  split; [|split].
  - destruct k as [|k].
    + unfold history_view. cbv beta zeta. cbn [page_tickets].
      unfold py_slice. cbv beta zeta. rewrite length_firstn.
      apply Nat.min_le_iff. left. unfold slice_index.
      repeat match goal with
             | |- context [?a <? ?b] => destruct (Z.ltb_spec a b)
             end; lia.
    + rewrite page_is_a_block, length_firstn. lia.
  - unfold history_view. cbn [next_button].
    destruct (Z.ltb_spec ((Z.of_nat k - 1) * 5 + 5)
                (Z.of_nat (List.length tickets)));
      destruct (Nat.ltb_spec (5 * k) (List.length tickets)); lia.
  - unfold history_view. cbn [previous_button].
    destruct (Z.ltb_spec 0 ((Z.of_nat k - 1) * 5));
      destruct (Nat.ltb_spec 1 k); lia.
Qed.

(** X22.  The buttons never lead astray.  From a page of number 1 or
    more, a Next button that is offered leads to a page that shows at
    least one ticket, and a Previous button that is offered leads to a
    page of number 1 or more that is full if the current page is not past
    the end. *)
Theorem history_buttons_stay_in_range
    (tickets : list Ticket) (page : Z) :
  1 <= page ->
  (next_button (history_view tickets page) = true ->
   page_tickets (history_view tickets (page + 1)) <> [])
  /\ (previous_button (history_view tickets page) = true ->
      1 <= page - 1
      /\ (page_tickets (history_view tickets page) <> [] ->
          List.length (page_tickets (history_view tickets (page - 1)))
          = 5%nat)).
Proof.
  intros Hpage.
  assert (Block : forall p, 1 <= p ->
            page_tickets (history_view tickets p)
            = firstn 5 (skipn (5 * Z.to_nat (p - 1)) tickets)).
  { intros p Hp. replace p with (Z.of_nat (S (Z.to_nat (p - 1)))) at 1 by lia.
    apply page_is_a_block. }
  assert (Len : forall p, 1 <= p ->
            List.length (page_tickets (history_view tickets p))
            = Nat.min 5 (List.length tickets - 5 * Z.to_nat (p - 1))).
  { intros p Hp. rewrite (Block p Hp), length_firstn, length_skipn.
    reflexivity. }
  split.
  - unfold history_view at 1. cbn [next_button]. intros Hnext.
    apply Z.ltb_lt in Hnext. intros Hnil.
    apply (f_equal (@List.length Ticket)) in Hnil.
    rewrite Len in Hnil by lia. cbn [List.length] in Hnil. lia.
  - unfold history_view at 1. cbn [previous_button]. intros Hprev.
    apply Z.ltb_lt in Hprev. split; [lia|].
    intros Hsome. rewrite Len by lia.
    assert (List.length (page_tickets (history_view tickets page)) <> 0%nat)
      as Hpos.
    { intros H0. apply Hsome. apply length_zero_iff_nil. exact H0. }
    rewrite Len in Hpos by lia. lia.
Qed.

Lemma history_buttons_stay_in_range_witness :
  1 <= 2
  /\ next_button
       (history_view (repeat (Scenario.alice_ticket "daily") 12) 2) = true
  /\ List.length
       (page_tickets
          (history_view (repeat (Scenario.alice_ticket "daily") 12) (2 - 1)))
     = 5%nat.
Proof.
  split; [lia|]. split; [vm_compute; reflexivity|].
  apply (history_buttons_stay_in_range
           (repeat (Scenario.alice_ticket "daily") 12) 2 ltac:(lia));
    vm_compute; congruence.
Defined.

(** *** Ticket status and statistics *)

Lemma forallb_drawn ts :
  forallb (fun t => drawn t =? 0) ts
  = forallb (fun d => d =? 0) (map drawn ts).
Proof.
  induction ts as [|t ts IH]; [reflexivity|].
  cbn [map forallb]. rewrite IH. reflexivity.
Qed.

Lemma none_drawn_kept w w' :
  ledger_kept w w' -> none_drawn w' = none_drawn w.
Proof.
  intros (_ & _ & _ & _ & H). unfold none_drawn.
  rewrite !forallb_drawn, <- (DrawFacts.drawn_forget (lottery_tickets w')),
    <- (DrawFacts.drawn_forget (lottery_tickets w)), H.
  reflexivity.
Qed.

(** X23.  No ticket is ever shown as "Drawn".  If no ticket of the ledger
    is marked as drawn (so in an empty ledger), none is after the start of
    the bot, after a confirmed purchase or after a run of the draw job;
    and every ticket of such a ledger has the status "Won" if it won
    something and "Pending" otherwise, also after its draw. *)
Theorem no_ticket_is_ever_shown_as_drawn (w : World) :
  none_drawn w = true ->
  none_drawn (snd (main w)) = true
  /\ (forall lottery tid pending,
        none_drawn (snd (confirm_buy_ticket lottery tid pending w)) = true)
  /\ (forall lottery dt,
        none_drawn (snd (draw_job_callback lottery dt w)) = true)
  /\ (forall t, In t (lottery_tickets w) ->
        ticket_status t = if (0 <? won t)%float then "Won" else "Pending").
Proof.
  intros Hnone. split; [exact Hnone|]. split; [|split].
  - intros lottery tid pending.
    destruct (SessionFacts.confirm_buy_ticket_run lottery tid pending w)
      as (outcome & w1 & E & _ & _ & _ & _ & H).
    rewrite E. cbn [snd]. unfold none_drawn in *.
    destruct (find _ (users w));
      [destruct pending|];
      try (destruct H as [-> _]; exact Hnone).
    destruct H as [_ [(_ & -> & _)|(h & _ & ->)]]; [exact Hnone|].
    rewrite forallb_app, Hnone. reflexivity.
  - intros lottery dt.
    destruct (DrawFacts.draw_job_callback_spec lottery dt w)
      as (report & w1 & E & K & _).
    rewrite E. cbn [snd]. rewrite (none_drawn_kept w w1 K). exact Hnone.
  - intros t Hin. unfold none_drawn in Hnone.
    rewrite forallb_forall in Hnone. specialize (Hnone t Hin).
    unfold ticket_status. rewrite Hnone. reflexivity.
Qed.

Lemma no_ticket_is_ever_shown_as_drawn_witness :
  let w := Scenario.one_ticket_sold "daily" Scenario.with_payout
             Scenario.accepting_node Scenario.window_2000 in
  none_drawn w = true
  /\ none_drawn (snd (draw_job_callback "daily" Scenario.window_2000 w))
     = true.
Proof.
  cbv zeta. split; [vm_compute; reflexivity|].
  apply (no_ticket_is_ever_shown_as_drawn
           (Scenario.one_ticket_sold "daily" Scenario.with_payout
              Scenario.accepting_node Scenario.window_2000)).
  vm_compute. reflexivity.
Defined.

Lemma fold_left_add xs a :
  fold_left Z.add xs a = a + fold_right Z.add 0 xs.
Proof.
  revert a. induction xs as [|x xs IH]; intros a; cbn [fold_left fold_right];
    [lia|]. rewrite IH. lia.
Qed.

Lemma expand_entries_length rows :
  List.length (expand_entries rows)
  = fold_right (fun row total => (Z.to_nat (snd row) + total)%nat) 0%nat rows.
Proof.
  unfold expand_entries.
  induction rows as [|row rows IH]; [reflexivity|].
  cbn [flat_map fold_right]. rewrite length_app, repeat_length, IH.
  reflexivity.
Qed.

(** X24.  [get_tickets_stats] counts the pool of the coming draw.  It
    reads the clock once and returns the pot of the lottery as a draw
    would read it, together with a ticket total that is 0 when the coming
    window has no open ticket and, when no quantity is negative, the
    number of entries that a draw of that window would expand these
    tickets into. *)
Theorem ticket_stats_count_the_pool (lottery : string) (w : World) :
  let now := clock (outside w) (ticks w) in
  let rows := select_undrawn lottery (get_next_draw_datetime now lottery)
                (lottery_tickets w) in
  exists total,
    get_tickets_stats lottery w
    = (Ok (total, pot_read lottery w), set_ticks w (S (ticks w)))
    /\ (rows = [] -> total = 0)
    /\ (Forall (fun row => 0 <= snd row) rows ->
        total = Z.of_nat (List.length (expand_entries rows))).
Proof.
  cbv zeta.
  set (rows := select_undrawn lottery
                 (get_next_draw_datetime (clock (outside w) (ticks w)) lottery)
                 (lottery_tickets w)).
  exists (match sql_sum (map snd rows) with
          | Some total => if total =? 0 then 0 else total
          | None => 0
          end).
  split; [|split].
  - unfold get_tickets_stats, pot_read.
    cbv beta iota zeta
        delta [bind datetime_now undrawn_rows get_lottery_info gets ret].
    cbn [lottery_tickets lottery_pot set_ticks]. fold rows.
    destruct (find _ (lottery_pot w)); reflexivity.
  - intros ->. reflexivity.
  - intros Hpos. rewrite expand_entries_length.
    assert (Sum : fold_right Z.add 0 (map snd rows)
                  = Z.of_nat
                      (fold_right
                         (fun row total => (Z.to_nat (snd row) + total)%nat)
                         0%nat rows)).
    { clearbody rows. induction Hpos as [|row rows Hrow _ IH];
        [reflexivity|].
      cbn [map fold_right]. rewrite IH. lia. }
    clearbody rows. destruct rows as [|row rows']; [reflexivity|].
    unfold sql_sum. cbn [map] in Sum |- *.
    rewrite fold_left_add, Sum.
    match goal with
    | |- context [?a =? 0] => destruct (Z.eqb_spec a 0)
    end; lia.
Qed.

End HistoryFacts.
